(** * SPH_Simulation.py: a shallow embedding of the physics kernel

    The simulation is written with numpy arrays and relies on numpy's
    broadcasting rules.  The embedding therefore has three layers:

    - [Py]: Python exceptions as an error monad;
    - [Np]: the fragment of numpy the program uses (shapes, broadcasting,
      [np.newaxis] indexing, [np.sum(axis=1)], [np.linalg.norm(axis=-1)],
      slices [a[:stop]] and the in-place [a[:stop] += b]);
    - [SPH]: [ParticleList] and the functions of the source, one definition
      per Python function, with the same names.

    Numbers: a float64 is modelled as a real number of [R].  Rounding,
    overflow, [inf] and [nan] are outside the model: a quotient is a real
    number here also where numpy would give [inf] or [nan]. *)

From Stdlib Require Import Reals Lra Lia List ZArith Arith Bool.
Import ListNotations.

Open Scope R_scope.

(* ===================================================================== *)
(** * Python exceptions *)
(* ===================================================================== *)

Module Py.

Inductive exn : Set :=
| ValueError      (* operands could not be broadcast together *)
| IndexError      (* too many indices for array *)
| AxisError       (* axis out of bounds for array *)
| AttributeError. (* object has no such attribute *)

Inductive result (A : Type) : Type :=
| Ok (a : A)
| Raise (e : exn).

Arguments Ok {A} a.
Arguments Raise {A} e.

Definition bind {A B : Type} (r : result A) (f : A -> result B) : result B :=
  match r with
  | Ok a => f a
  | Raise e => Raise e
  end.

(** Python slice bound: [a[:stop]] and [a[start:]] clamp an int to
    [0 .. len], a negative one counting from the end. *)
Definition slice_bound (i : Z) (len : nat) : nat :=
  if (i <? 0)%Z then Z.to_nat (Z.max 0 (Z.of_nat len + i))
  else Nat.min (Z.to_nat i) len.

End Py.

Import Py.

Declare Scope py_scope.
Notation "x <- r ;; k" := (Py.bind r (fun x => k))
  (at level 61, r at next level, right associativity) : py_scope.
Open Scope py_scope.

(* ===================================================================== *)
(** * The numpy fragment *)
(* ===================================================================== *)

Module Np.

(** An array is a shape and the value at each index tuple. *)
Record ndarray : Type := mk_array {
  shape : list nat;
  item : list nat -> R
}.

Definition ndim (a : ndarray) : nat := length (shape a).

(** Sum of [f 0 .. f (n-1)]. *)
Fixpoint sum_upto (n : nat) (f : nat -> R) : R :=
  match n with
  | O => 0
  | S m => sum_upto m f + f m
  end.

(** ** Broadcasting

    Two dimensions are compatible when they are equal or one of them is 1;
    shapes are aligned at their trailing ends. *)
Definition bdim (a b : nat) : option nat :=
  if (a =? b)%nat then Some a
  else if (a =? 1)%nat then Some b
  else if (b =? 1)%nat then Some a
  else None.

Fixpoint bshape_rev (s t : list nat) : option (list nat) :=
  match s, t with
  | [], _ => Some t
  | _, [] => Some s
  | a :: s', b :: t' =>
      match bdim a b, bshape_rev s' t' with
      | Some d, Some r => Some (d :: r)
      | _, _ => None
      end
  end.

Definition broadcast_shapes (s t : list nat) : option (list nat) :=
  option_map (@rev nat) (bshape_rev (rev s) (rev t)).

(** The index an operand of shape [s] is read at, for the index [idx] of
    the broadcast result: leading axes are dropped, axes of length 1 are
    read at 0. *)
Definition bidx (n i : nat) : nat := if (n =? 1)%nat then O else i.

Fixpoint bindex_rev (s idx : list nat) : list nat :=
  match s, idx with
  | n :: s', i :: idx' => bidx n i :: bindex_rev s' idx'
  | _, _ => []
  end.

Definition bindex (s idx : list nat) : list nat :=
  rev (bindex_rev (rev s) (rev idx)).

(** Element-wise binary operation [a op b]. *)
Definition broadcast2 (f : R -> R -> R) (a b : ndarray) : result ndarray :=
  match broadcast_shapes (shape a) (shape b) with
  | Some s =>
      Ok (mk_array s (fun idx =>
            f (item a (bindex (shape a) idx)) (item b (bindex (shape b) idx))))
  | None => Raise ValueError
  end.

(** Element-wise function, and operations with a Python scalar. *)
Definition amap (f : R -> R) (a : ndarray) : ndarray :=
  mk_array (shape a) (fun idx => f (item a idx)).

(** ** Indexing with [np.newaxis]

    [a[:, np.newaxis, :]] is [newaxis 2 1 a]: [slices] counts the [:] of
    the index expression, [pos] is the place of [np.newaxis] in it. *)
Definition newaxis (slices pos : nat) (a : ndarray) : result ndarray :=
  if (slices <=? ndim a)%nat then
    Ok (mk_array (firstn pos (shape a) ++ 1%nat :: skipn pos (shape a))
          (fun idx => item a (firstn pos idx ++ skipn (S pos) idx)))
  else Raise IndexError.

(** ** Reductions *)

(** [np.sum(a, axis=1)]. *)
Definition sum_axis1 (a : ndarray) : result ndarray :=
  match shape a with
  | n0 :: n1 :: rest =>
      Ok (mk_array (n0 :: rest) (fun idx =>
            match idx with
            | i :: idx' => sum_upto n1 (fun j => item a (i :: j :: idx'))
            | [] => 0
            end))
  | _ => Raise AxisError
  end.

(** [np.linalg.norm(a, axis=-1)]: square root of the sum of squares along
    the last axis. *)
Definition norm_last (a : ndarray) : result ndarray :=
  match shape a with
  | [] => Raise AxisError
  | _ :: _ =>
      Ok (mk_array (removelast (shape a)) (fun idx =>
            sqrt (sum_upto (last (shape a) O)
                    (fun c => item a (idx ++ [c]) * item a (idx ++ [c])))))
  end.

(** ** Slices along the first axis *)

(** [a[:stop]]. *)
Definition slice0 (stop : Z) (a : ndarray) : result ndarray :=
  match shape a with
  | [] => Raise IndexError
  | n0 :: rest => Ok (mk_array (slice_bound stop n0 :: rest) (item a))
  end.

Fixpoint shape_eqb (s t : list nat) : bool :=
  match s, t with
  | [], [] => true
  | a :: s', b :: t' => (a =? b)%nat && shape_eqb s' t'
  | _, _ => false
  end.

(** [a[:stop] += b], on an array the caller owns: [b] must broadcast to
    the shape of the slice. *)
Definition iadd_slice0 (stop : Z) (a b : ndarray) : result ndarray :=
  match shape a with
  | [] => Raise IndexError
  | n0 :: rest =>
      let s := slice_bound stop n0 :: rest in
      match broadcast_shapes s (shape b) with
      | Some s' =>
          if shape_eqb s' s then
            Ok (mk_array (shape a) (fun idx =>
                  match idx with
                  | i :: _ =>
                      if (i <? slice_bound stop n0)%nat
                      then item a idx + item b (bindex (shape b) idx)
                      else item a idx
                  | [] => item a idx
                  end))
          else Raise ValueError
      | None => Raise ValueError
      end
  end.

(** [a.copy()]. *)
Definition copy (a : ndarray) : ndarray := mk_array (shape a) (item a).

(** ** Array literals: [np.array] of a list, of a list of rows, and of a
    list of matrices (all rows of one length). *)
Definition array1 (l : list R) : ndarray :=
  mk_array [length l]
    (fun idx => match idx with [i] => nth i l 0 | _ => 0 end).

Definition array2 (rows : list (list R)) : ndarray :=
  mk_array [length rows; length (hd [] rows)]
    (fun idx => match idx with [i; c] => nth c (nth i rows []) 0 | _ => 0 end).

Definition array3 (mats : list (list (list R))) : ndarray :=
  mk_array [length mats; length (hd [] mats); length (hd [] (hd [] mats))]
    (fun idx =>
       match idx with
       | [i; j; c] => nth c (nth j (nth i mats []) []) 0
       | _ => 0
       end).

End Np.

Import Np.

(* ===================================================================== *)
(** * The simulation *)
(* ===================================================================== *)

Module SPH.

(** [class ParticleList].  [rest_densities] is [None] while [__init__]
    has not assigned the attribute yet. *)
Record ParticleList : Type := mk_particles {
  masses : ndarray;
  positions : ndarray;
  velocities : ndarray;
  h : R;
  k : R;
  num_particles : nat;
  num_fluid_particles : Z;
  rest_densities : option ndarray
}.

Definition set_rest_densities (rd : ndarray) (p : ParticleList) : ParticleList :=
  mk_particles (masses p) (positions p) (velocities p) (h p) (k p)
    (num_particles p) (num_fluid_particles p) (Some rd).

Definition set_positions (x : ndarray) (p : ParticleList) : ParticleList :=
  mk_particles (masses p) x (velocities p) (h p) (k p)
    (num_particles p) (num_fluid_particles p) (rest_densities p).

Definition set_velocities (v : ndarray) (p : ParticleList) : ParticleList :=
  mk_particles (masses p) (positions p) v (h p) (k p)
    (num_particles p) (num_fluid_particles p) (rest_densities p).

(** ** Kernels *)

(** The scalar the Gaussian kernel computes from the norm [x] of a
    displacement:
    [1 / (h * np.sqrt(2 * np.pi)) * np.exp(-(x ** 2) / (2 * (h**2)))]. *)
Definition gaussian_of_norm (h x : R) : R :=
  1 / (h * sqrt (2 * PI)) * exp ((- (x ^ 2)) / (2 * h ^ 2)).

(** [-1 / ((h**3) * np.sqrt(2 * np.pi)) * np.exp(-(x**2) / (2 * (h**2)))],
    the factor that multiplies [d] in [gaussian_grad]. *)
Definition gaussian_grad_of_norm (h x : R) : R :=
  (-1) / (h ^ 3 * sqrt (2 * PI)) * exp ((- (x ^ 2)) / (2 * h ^ 2)).

Definition gaussian (d : ndarray) (h : R) : result ndarray :=
  n <- norm_last d ;;
  Ok (amap (gaussian_of_norm h) n).

Definition gaussian_grad (d : ndarray) (h : R) : result ndarray :=
  n <- norm_last d ;;
  dnorm <- newaxis 2 2 n ;;
  broadcast2 Rmult (amap (gaussian_grad_of_norm h) dnorm) d.

(** [particles.positions[:, np.newaxis, :] - particles.positions[np.newaxis, :, :]] *)
Definition positions_diff (particles : ParticleList) : result ndarray :=
  xi <- newaxis 2 1 (positions particles) ;;
  xj <- newaxis 2 0 (positions particles) ;;
  broadcast2 Rminus xi xj.

(** ** Density and pressure *)

(** The [np.zeros(particles.num_particles)] the source binds first is
    overwritten before it is read. *)
Definition reconstruct_density (particles : ParticleList) : result ndarray :=
  diff <- positions_diff particles ;;
  m <- newaxis 1 0 (masses particles) ;;
  w <- gaussian diff (h particles) ;;
  prod <- broadcast2 Rmult m w ;;
  sum_axis1 prod.

Definition get_rest_densities (particles : ParticleList) : result ndarray :=
  match rest_densities particles with
  | Some rd => Ok rd
  | None => Raise AttributeError
  end.

Definition eval_pressure (particles : ParticleList) (densities : ndarray)
  : result ndarray :=
  rd <- get_rest_densities particles ;;
  ratio <- broadcast2 Rdiv densities rd ;;
  Ok (amap (fun x => k particles * Rmax (x - 1) 0) ratio).

Definition eval_pressure_grad (particles : ParticleList) (densities : ndarray)
  : result ndarray :=
  pressures <- eval_pressure particles densities ;;
  diff <- positions_diff particles ;;
  gaussian <- gaussian_grad diff (h particles) ;;
  pc <- newaxis 1 1 pressures ;;
  dc <- newaxis 1 1 densities ;;
  t1 <- broadcast2 Rdiv pc (amap (fun x => x ^ 2) dc) ;;
  t2 <- broadcast2 Rdiv pc (amap (fun x => x ^ 2) dc) ;;
  fraction_sum <- broadcast2 Rplus t1 t2 ;;
  mc <- newaxis 1 1 (masses particles) ;;
  dm <- broadcast2 Rmult dc mc ;;
  dmf <- broadcast2 Rmult dm fraction_sum ;;
  prod <- broadcast2 Rmult dmf gaussian ;;
  sum_axis1 prod.

(** ** Integration *)

Definition apply_gravity_force (particles : ParticleList) (g : ndarray) (dt : R)
  : result ndarray :=
  let velocities_new := copy (velocities particles) in
  iadd_slice0 (num_fluid_particles particles) velocities_new (amap (Rmult dt) g).

Definition apply_pressure_force (particles : ParticleList)
    (velocities densities pressure_grads : ndarray) (dt : R) : result ndarray :=
  dc <- newaxis 1 1 densities ;;
  force <- broadcast2 Rmult (amap (fun x => (-1) / x) dc) pressure_grads ;;
  mc <- newaxis 1 1 (masses particles) ;;
  acc <- broadcast2 Rdiv (amap (Rmult dt) force) mc ;;
  broadcast2 Rplus velocities acc.

Definition update_positions (particles : ParticleList) (velocities : ndarray)
    (dt : R) : result ndarray :=
  let positions_new := copy (positions particles) in
  v <- slice0 (num_fluid_particles particles) velocities ;;
  iadd_slice0 (num_fluid_particles particles) positions_new (amap (Rmult dt) v).

Definition timestep (particles : ParticleList) (g : ndarray) (dt : R)
  : result ParticleList :=
  densities <- reconstruct_density particles ;;
  pressure_grads <- eval_pressure_grad particles densities ;;
  velocities1 <- apply_gravity_force particles g dt ;;
  new_velocities <-
    apply_pressure_force particles velocities1 densities pressure_grads dt ;;
  new_positions <- update_positions particles new_velocities dt ;;
  Ok (set_velocities new_velocities (set_positions new_positions particles)).

(** [ParticleList.__init__]: [positions.shape[0]] needs at least one
    axis; nothing else is inspected before the rest densities are
    computed. *)
Definition init (masses positions velocities : ndarray) (h k : R)
    (num_fluid_particles : Z) : result ParticleList :=
  match shape positions with
  | [] => Raise IndexError
  | n :: _ =>
      let self :=
        mk_particles masses positions velocities h k n num_fluid_particles None in
      rd <- reconstruct_density self ;;
      Ok (set_rest_densities rd self)
  end.

(** The driver loop: [for _ in range(num_frames): timestep(particles, g, dt)]. *)
Fixpoint run (frames : nat) (particles : ParticleList) (g : ndarray) (dt : R)
  : result ParticleList :=
  match frames with
  | O => Ok particles
  | S n =>
      particles' <- timestep particles g dt ;;
      run n particles' g dt
  end.

(** The invariant of the data model for [N] particles in the plane: the
    arrays are aligned index to index. *)
Definition consistent (N : nat) (p : ParticleList) : Prop :=
  shape (masses p) = [N] /\
  shape (positions p) = [N; 2%nat] /\
  shape (velocities p) = [N; 2%nat] /\
  num_particles p = N /\
  exists rd, rest_densities p = Some rd /\ shape rd = [N].

(** Where the boundary block begins: the bound of the slice
    [[:num_fluid_particles]] on an axis of length [N]. *)
Definition fluid_bound (p : ParticleList) (N : nat) : nat :=
  slice_bound (num_fluid_particles p) N.

End SPH.

Import SPH.

(* ===================================================================== *)
(** * The formulas of the specification

    These definitions follow the words of the specification, not the
    source; the theorems compare the source with them. *)
(* ===================================================================== *)

Module Spec.

(** ** Section 4.1: the closed forms of the kernels

    [W(d,h) = 1/(h sqrt(2 pi)) exp(-|d|^2 / (2 h^2))] and
    [grad W(d,h) = -1/(h^3 sqrt(2 pi)) exp(-|d|^2 / (2 h^2)) d], for a
    displacement [d = (dx, dy)]; [kernelGradient] gives the component of the
    gradient along the axis where [d] has the coordinate [dc]. *)
Definition kernelValue (dx dy h : R) : R :=
  1 / (h * sqrt (2 * PI)) * exp (- ((dx ^ 2 + dy ^ 2) / (2 * h ^ 2))).

Definition kernelGradient (dx dy h dc : R) : R :=
  - (1 / (h ^ 3 * sqrt (2 * PI))) * exp (- ((dx ^ 2 + dy ^ 2) / (2 * h ^ 2))) * dc.

(** ** Section 4.4: the equation of state and the pressure gradient

    [pressureGrad(i) = sum_j density_i mass_j
       (pressure_i/density_i^2 + pressure_i/density_i^2)
       kernelGradient(position_i - position_j, h)], component [c], with the
    pressures of the equation of state. *)
Definition pressure (p : ParticleList) (densities rd : ndarray) (i : nat) : R :=
  k p * Rmax (item densities [i] / item rd [i] - 1) 0.

Definition pressureGrad (p : ParticleList) (densities rd : ndarray)
    (N i c : nat) : R :=
  sum_upto N (fun j =>
    item densities [i] * item (masses p) [j]
    * (pressure p densities rd i / item densities [i] ^ 2
       + pressure p densities rd i / item densities [i] ^ 2)
    * kernelGradient
        (item (positions p) [i; O] - item (positions p) [j; O])
        (item (positions p) [i; 1%nat] - item (positions p) [j; 1%nat])
        (h p)
        (item (positions p) [i; c] - item (positions p) [j; c])).

End Spec.

Import Spec.

(* ===================================================================== *)
(** * Concrete inputs *)
(* ===================================================================== *)

Module Fixtures.

(** Two displacements, [(0, 0)] and [(3, 4)], as a [(1, 2, 2)] tensor. *)
Definition d_pair : ndarray := array3 [[[0; 0]; [3; 4]]].

(** Two particles one unit apart. *)
Definition ms2 : ndarray := array1 [1; 1].
Definition xs2 : ndarray := array2 [[0; 0]; [1; 0]].
Definition vs2 : ndarray := array2 [[0; 0]; [0; 0]].
Definition g_down : ndarray := array1 [0; -1].

(** The two particles with rest densities [1, 1], and densities [1, 2]:
    only the second particle is compressed. *)
Definition p_uneven : ParticleList :=
  mk_particles ms2 xs2 vs2 1 1 2 1%Z (Some (array1 [1; 1])).
Definition dens_uneven : ndarray := array1 [1; 2].

(** One particle with a negative stiffness, at twice its rest density. *)
Definition p_neg_k : ParticleList :=
  mk_particles (array1 [1]) (array2 [[0; 0]]) (array2 [[0; 0]]) 1 (-1) 1 1%Z
    (Some (array1 [1])).
Definition dens_double : ndarray := array1 [2].


(** Velocities for three particles, and a fluid count of five. *)
Definition vs3 : ndarray := array2 [[0; 0]; [0; 0]; [0; 0]].

End Fixtures.


(* ===================================================================== *)
(** * More of numpy: what the module-level code of the script uses *)
(* ===================================================================== *)

Module NpMore.

(** Python list indexing [l[i]]: a negative index counts from the end. *)
Definition list_index {A : Type} (l : list A) (i : Z) : result A :=
  let j := if (i <? 0)%Z then (Z.of_nat (length l) + i)%Z else i in
  if (j <? 0)%Z then Raise IndexError
  else match nth_error l (Z.to_nat j) with
       | Some a => Ok a
       | None => Raise IndexError
       end.

(** [a[start:]]. *)
Definition slice_from (start : Z) (a : ndarray) : result ndarray :=
  match shape a with
  | [] => Raise IndexError
  | n0 :: rest =>
      let s := slice_bound start n0 in
      Ok (mk_array ((n0 - s)%nat :: rest) (fun idx =>
            match idx with
            | i :: r => item a ((s + i)%nat :: r)
            | [] => item a []
            end))
  end.

(** [np.linspace(start, stop, num)]: [num] samples, the last one [stop].
    With one sample the step is undefined and the sample is [start]. *)
Definition linspace (start stop : R) (num : nat) : ndarray :=
  let div := (num - 1)%nat in
  let delta := stop - start in
  mk_array [num] (fun idx =>
    match idx with
    | [i] =>
        if (0 <? div)%nat then
          if (i =? div)%nat then stop
          else INR i * (delta / INR div) + start
        else INR i * delta + start
    | _ => 0
    end).

(** Number of elements of an array of shape [s], and the index tuple of
    the [i]-th element in row-major order. *)
Fixpoint size (s : list nat) : nat :=
  match s with
  | [] => 1%nat
  | n :: s' => (n * size s')%nat
  end.

Fixpoint unravel (s : list nat) (i : nat) : list nat :=
  match s with
  | [] => []
  | _ :: s' => (i / size s')%nat :: unravel s' (i mod size s')
  end.

(** [a.flatten()]. *)
Definition flatten (a : ndarray) : ndarray :=
  mk_array [size (shape a)] (fun idx =>
    match idx with
    | [i] => item a (unravel (shape a) i)
    | _ => 0
    end).

(** [np.meshgrid(x, y)]: both grids have one row per element of [y] and
    one column per element of [x]. *)
Definition meshgrid (x y : ndarray) : ndarray * ndarray :=
  let s := [size (shape y); size (shape x)] in
  (mk_array s (fun idx =>
     match idx with [_; c] => item (flatten x) [c] | _ => 0 end),
   mk_array s (fun idx =>
     match idx with [r; _] => item (flatten y) [r] | _ => 0 end)).

(** [np.stack(arrays, axis=1)]. *)
Definition stack1 (arrays : list ndarray) : result ndarray :=
  match arrays with
  | [] => Raise ValueError
  | a :: others =>
      if forallb (fun b => shape_eqb (shape b) (shape a)) others then
        match shape a with
        | [] => Raise AxisError
        | n0 :: s' =>
            Ok (mk_array (n0 :: length arrays :: s') (fun idx =>
                  match idx with
                  | i :: c :: r => item (nth c arrays a) (i :: r)
                  | _ => 0
                  end))
        end
      else Raise ValueError
  end.

(** [np.concatenate(arrays, axis=0)]. *)
Fixpoint concat_item (arrays : list ndarray) (i : nat) (r : list nat) : R :=
  match arrays with
  | [] => 0
  | a :: arrays' =>
      let n := hd O (shape a) in
      if (i <? n)%nat then item a (i :: r) else concat_item arrays' (i - n) r
  end.

Fixpoint concat_rows (arrays : list ndarray) : nat :=
  match arrays with
  | [] => O
  | a :: arrays' => (hd O (shape a) + concat_rows arrays')%nat
  end.

Definition concatenate0 (arrays : list ndarray) : result ndarray :=
  match arrays with
  | [] => Raise ValueError
  | a :: others =>
      match shape a with
      | [] => Raise ValueError
      | _ :: s' =>
          if forallb (fun b =>
                        match shape b with
                        | [] => false
                        | _ :: t => shape_eqb t s'
                        end) others
          then Ok (mk_array (concat_rows arrays :: s') (fun idx =>
                     match idx with
                     | i :: r => concat_item arrays i r
                     | [] => 0
                     end))
          else Raise ValueError
      end
  end.

(** [np.zeros_like(a)], [np.ones_like(a)], [np.ones(n)]. *)
Definition zeros_like (a : ndarray) : ndarray := mk_array (shape a) (fun _ => 0).
Definition ones_like (a : ndarray) : ndarray := mk_array (shape a) (fun _ => 1).
Definition ones (n : nat) : ndarray := mk_array [n] (fun _ => 1).

End NpMore.

Import NpMore.

(* ===================================================================== *)
(** * The module-level code of the script

    The script fixes [grid_dim = 20], [num_wall_particles = 50] and
    [num_frames = 500]; the functions below take them as arguments.  The
    decimal constants are written as fractions. *)
(* ===================================================================== *)

Module Script.

Definition h_const : R := 2 / 100.
Definition k_const : R := 23 / 10.
Definition dt_const : R := 2 / 100.
Definition g_const : ndarray := array1 [0; -1].

(** [fluid_positions]. *)
Definition fluid_positions (grid_dim : nat) : result ndarray :=
  let x := linspace (- (2 / 10)) (2 / 10) grid_dim in
  let y := linspace (2 / 10) (4 / 10) grid_dim in
  let (xgrid, ygrid) := meshgrid x y in
  stack1 [flatten xgrid; flatten ygrid].

(** [boundary_positions]: the four walls, bottom, right, top, left. *)
Definition boundary_positions (num_wall_particles : nat) : result ndarray :=
  wall0_x <- slice0 (-1) (linspace (- (5 / 10)) (5 / 10) (num_wall_particles + 1)) ;;
  let wall0_y := zeros_like wall0_x in
  let wall1_x := amap (Rmult (5 / 10)) (ones_like wall0_x) in
  wall1_y <- slice0 (-1) (linspace 0 1 (num_wall_particles + 1)) ;;
  wall2_x <- slice0 (-1) (linspace (5 / 10) (- (5 / 10)) (num_wall_particles + 1)) ;;
  let wall2_y := ones_like wall2_x in
  let wall3_x := amap (Rmult (- (5 / 10))) (ones_like wall0_x) in
  wall3_y <- slice0 (-1) (linspace 1 0 (num_wall_particles + 1)) ;;
  boundary_x <- concatenate0 [wall0_x; wall1_x; wall2_x; wall3_x] ;;
  boundary_y <- concatenate0 [wall0_y; wall1_y; wall2_y; wall3_y] ;;
  stack1 [boundary_x; boundary_y].

(** The [ParticleList] the script assembles. *)
Definition initial_particles (grid_dim num_wall_particles : nat)
  : result ParticleList :=
  let num_fluid_particles := Z.of_nat (grid_dim * grid_dim) in
  fluid <- fluid_positions grid_dim ;;
  boundary <- boundary_positions num_wall_particles ;;
  positions <- concatenate0 [fluid; boundary] ;;
  let velocities := zeros_like positions in
  match shape positions with
  | [] => Raise IndexError
  | n :: _ =>
      let masses := amap (Rmult (1 / 10)) (ones n) in
      init masses (copy positions) (copy velocities) h_const k_const
        num_fluid_particles
  end.

(** The loop that fills [frame_data]:
    [timestep(particles, g, dt); frame_data.append(particles.positions.copy())]. *)
Fixpoint precompute (num_frames : nat) (particles : ParticleList)
    (g : ndarray) (dt : R) (frame_data : list ndarray)
  : result (ParticleList * list ndarray) :=
  match num_frames with
  | O => Ok (particles, frame_data)
  | S n =>
      particles' <- timestep particles g dt ;;
      precompute n particles' g dt (frame_data ++ [copy (positions particles')])
  end.

(** What [update(frame)] hands to the two scatter plots: the fluid rows
    and the boundary rows of the frame. *)
Definition update (frame_data : list ndarray) (num_fluid_particles : Z)
    (frame : Z) : result (ndarray * ndarray) :=
  fd <- list_index frame_data frame ;;
  fluid_particles <- slice0 num_fluid_particles fd ;;
  fd' <- list_index frame_data frame ;;
  boundary_particles <- slice_from num_fluid_particles fd' ;;
  Ok (fluid_particles, boundary_particles).


End Script.

Import Script.

(* ===================================================================== *)
(** * More concrete inputs *)
(* ===================================================================== *)

Module MoreFixtures.

(** The two particles of [p_uneven], moved by [(3, 4)]. *)
Definition p_shifted : ParticleList :=
  mk_particles Fixtures.ms2 (array2 [[3; 4]; [4; 4]]) Fixtures.vs2 1 1 2 1%Z
    (Some (array1 [1; 1])).

(** Two particles with a velocities array of three rows. *)
Definition p_three_velocities : ParticleList :=
  mk_particles Fixtures.ms2 Fixtures.xs2 Fixtures.vs3 1 1 2 1%Z
    (Some (array1 [1; 1])).

(** The two particles with rest densities twice the largest density two
    unit masses can reach at [h = 1]. *)
Definition rd_high : ndarray :=
  array1 [2 * (1 / (1 * sqrt (2 * PI))); 2 * (1 / (1 * sqrt (2 * PI)))].
Definition p_sparse : ParticleList :=
  mk_particles Fixtures.ms2 Fixtures.xs2 Fixtures.vs2 1 1 2 1%Z (Some rd_high).

(** The coordinates of the two particles as one flat list. *)
Definition xs_flat : ndarray := array1 [0; 0; 1; 0].

(** The masses of a particle set of one particle. *)
Definition ms_one : ndarray := array1 [1].

End MoreFixtures.
(* ===================================================================== *)
(** * Facts about the numpy fragment *)
(* ===================================================================== *)

Arguments bdim : simpl never.
Arguments bidx : simpl never.
Arguments slice_bound : simpl never.

Lemma bdim_same (n : nat) : bdim n n = Some n.
Proof. unfold bdim. now rewrite Nat.eqb_refl. Qed.

Lemma bdim_one_r (n : nat) : bdim n 1 = Some n.
Proof.
  unfold bdim. destruct (n =? 1)%nat eqn:E; [|reflexivity].
  apply Nat.eqb_eq in E. now subst.
Qed.

Lemma bdim_one_l (n : nat) : bdim 1 n = Some n.
Proof.
  unfold bdim. destruct (1 =? n)%nat eqn:E; [|reflexivity].
  apply Nat.eqb_eq in E. now subst.
Qed.

Lemma bidx_lt (n i : nat) : (i < n)%nat -> bidx n i = i.
Proof.
  unfold bidx. destruct (n =? 1)%nat eqn:E; [|reflexivity].
  apply Nat.eqb_eq in E. lia.
Qed.

Lemma bidx_one (i : nat) : bidx 1 i = O.
Proof. reflexivity. Qed.

Lemma bidx_two (i : nat) : bidx 2 i = i.
Proof. reflexivity. Qed.

Lemma shape_eqb_refl (s : list nat) : shape_eqb s s = true.
Proof. induction s; simpl; [reflexivity|]. now rewrite Nat.eqb_refl. Qed.

Lemma sum_upto_ext (n : nat) (f g : nat -> R) :
  (forall j, (j < n)%nat -> f j = g j) -> sum_upto n f = sum_upto n g.
Proof.
  induction n as [|n IH]; intros Hfg; simpl; [reflexivity|].
  rewrite IH by (intros; apply Hfg; lia). now rewrite Hfg by lia.
Qed.

Lemma sum_upto_zero (n : nat) (f : nat -> R) :
  (forall j, (j < n)%nat -> f j = 0) -> sum_upto n f = 0.
Proof.
  induction n as [|n IH]; intros Hf; simpl; [reflexivity|].
  rewrite IH by (intros; apply Hf; lia). rewrite Hf by lia. lra.
Qed.

Lemma slice_bound_le (i : Z) (len : nat) : (slice_bound i len <= len)%nat.
Proof. unfold slice_bound. destruct (i <? 0)%Z eqn:E; lia. Qed.

Lemma slice_bound_nonneg (i : Z) (len : nat) :
  (0 <= i)%Z -> slice_bound i len = Nat.min (Z.to_nat i) len.
Proof. intros Hi. unfold slice_bound. destruct (i <? 0)%Z eqn:E; lia. Qed.

(** The rules on small shapes. *)
Example broadcast_column_against_tensor :
  broadcast_shapes [3; 1]%nat [3; 3; 2]%nat = Some [3; 3; 2]%nat
  /\ bindex [3; 1]%nat [0; 2; 1]%nat = [2; 0]%nat.
Proof. split; reflexivity. Qed.

Example broadcast_row_against_matrix :
  broadcast_shapes [1; 3]%nat [3; 3]%nat = Some [3; 3]%nat
  /\ bindex [1; 3]%nat [0; 2]%nat = [0; 2]%nat
  /\ broadcast_shapes [1; 3]%nat [2; 2]%nat = None
  /\ broadcast_shapes [1; 5]%nat [1; 1]%nat = Some [1; 5]%nat.
Proof. repeat split; reflexivity. Qed.

Example slice_bound_cases :
  slice_bound 2 5 = 2%nat /\ slice_bound 7 5 = 5%nat
  /\ slice_bound (-1) 5 = 4%nat /\ slice_bound (-9) 5 = 0%nat.
Proof. repeat split; reflexivity. Qed.

Example newaxis_shapes :
  (exists a, newaxis 2 1 Fixtures.xs2 = Ok a /\ shape a = [2; 1; 2]%nat)
  /\ (exists a, newaxis 2 0 Fixtures.xs2 = Ok a /\ shape a = [1; 2; 2]%nat)
  /\ (exists a, newaxis 1 1 Fixtures.ms2 = Ok a /\ shape a = [2; 1]%nat)
  /\ newaxis 2 1 Fixtures.ms2 = Raise IndexError.
Proof.
  repeat split; try (eexists; split; reflexivity).
Qed.

(** Rewriting with the facts above after each unfolding step. *)
Ltac np_simpl :=
  repeat (simpl;
          rewrite ?bdim_same, ?bdim_one_r, ?bdim_one_l, ?bidx_one, ?bidx_two,
            ?shape_eqb_refl, ?Nat.eqb_refl, ?Nat.leb_refl).

Ltac np_idx :=
  repeat first
    [ rewrite bidx_one | rewrite bidx_two
    | match goal with
      | |- context [bidx ?n ?i] =>
          is_var i; rewrite (bidx_lt n i) by (assumption || lia)
      end ];
  simpl.

Ltac np_open a :=
  let s := fresh "s" in let f := fresh "f" in
  destruct a as [s f]; simpl in *; subst.

(* ===================================================================== *)
(** * Kernels *)
(* ===================================================================== *)

Section Kernels.

Variable hh : R.

Lemma norm_last_pairs (d : ndarray) (n m : nat) :
  shape d = [n; m; 2%nat] ->
  exists r, norm_last d = Ok r /\ shape r = [n; m] /\
    forall i j, item r [i; j] =
      sqrt (item d [i; j; O] * item d [i; j; O]
            + item d [i; j; 1%nat] * item d [i; j; 1%nat]).
Proof.
  intros Hs. np_open d. unfold norm_last. simpl.
  eexists. split; [reflexivity|]. split; [reflexivity|].
  intros i j. simpl. f_equal. lra.
Qed.

Lemma gaussian_pairs (d : ndarray) (n m : nat) :
  shape d = [n; m; 2%nat] ->
  exists w, gaussian d hh = Ok w /\ shape w = [n; m] /\
    forall i j, item w [i; j] =
      gaussian_of_norm hh
        (sqrt (item d [i; j; O] * item d [i; j; O]
               + item d [i; j; 1%nat] * item d [i; j; 1%nat])).
Proof.
  intros Hs. destruct (norm_last_pairs d n m Hs) as (r & Hr & Hsr & Hir).
  unfold gaussian. rewrite Hr. simpl.
  eexists. split; [reflexivity|]. split; [exact Hsr|].
  intros i j. simpl. now rewrite Hir.
Qed.

Lemma gaussian_grad_pairs (d : ndarray) (n m : nat) :
  shape d = [n; m; 2%nat] ->
  exists gw, gaussian_grad d hh = Ok gw /\ shape gw = [n; m; 2%nat] /\
    forall i j c, (i < n)%nat -> (j < m)%nat ->
      item gw [i; j; c] =
        gaussian_grad_of_norm hh
          (sqrt (item d [i; j; O] * item d [i; j; O]
                 + item d [i; j; 1%nat] * item d [i; j; 1%nat]))
        * item d [i; j; c].
Proof.
  intros Hs. destruct (norm_last_pairs d n m Hs) as (r & Hr & Hsr & Hir).
  unfold gaussian_grad. rewrite Hr. simpl.
  np_open r. np_open d. unfold newaxis, ndim. simpl.
  unfold broadcast2, broadcast_shapes, bindex. np_simpl.
  eexists. split; [reflexivity|]. split; [reflexivity|].
  intros i j c Hi Hj. simpl. np_idx. now rewrite Hir.
Qed.

End Kernels.

Lemma sqrt_2PI_pos : 0 < sqrt (2 * PI).
Proof. apply sqrt_lt_R0. pose proof PI_RGT_0. lra. Qed.

Lemma gaussian_of_norm_closed (h dx dy : R) :
  gaussian_of_norm h (sqrt (dx * dx + dy * dy)) = kernelValue dx dy h.
Proof.
  unfold gaussian_of_norm, kernelValue.
  rewrite pow2_sqrt by nra.
  do 2 f_equal. unfold Rdiv. rewrite Ropp_mult_distr_l. f_equal. lra.
Qed.

Lemma gaussian_grad_of_norm_closed (h dx dy dc : R) :
  gaussian_grad_of_norm h (sqrt (dx * dx + dy * dy)) * dc
  = kernelGradient dx dy h dc.
Proof.
  unfold gaussian_grad_of_norm, kernelGradient.
  rewrite pow2_sqrt by nra.
  replace ((- (dx * dx + dy * dy)) / (2 * h ^ 2))
    with (- ((dx ^ 2 + dy ^ 2) / (2 * h ^ 2))).
  - unfold Rdiv. lra.
  - unfold Rdiv. rewrite Ropp_mult_distr_l. f_equal. lra.
Qed.

Lemma kernelValue_pos (dx dy h : R) : 0 < h -> 0 < kernelValue dx dy h.
Proof.
  intros Hh. unfold kernelValue.
  apply Rmult_lt_0_compat; [|apply exp_pos].
  apply Rdiv_lt_0_compat; [lra|].
  apply Rmult_lt_0_compat; [assumption|apply sqrt_2PI_pos].
Qed.

Lemma kernelValue_origin (h : R) : kernelValue 0 0 h = 1 / (h * sqrt (2 * PI)).
Proof.
  unfold kernelValue.
  replace (- ((0 ^ 2 + 0 ^ 2) / (2 * h ^ 2))) with 0.
  - rewrite exp_0. lra.
  - unfold Rdiv. lra.
Qed.

Lemma kernelGradient_origin (dx dy h : R) : kernelGradient dx dy h 0 = 0.
Proof. unfold kernelGradient. lra. Qed.

(* ===================================================================== *)
(** * Density *)
(* ===================================================================== *)

Lemma positions_diff_pairs (p : ParticleList) (N : nat) :
  shape (positions p) = [N; 2%nat] ->
  exists D, positions_diff p = Ok D /\ shape D = [N; N; 2%nat] /\
    forall i j c, (i < N)%nat -> (j < N)%nat ->
      item D [i; j; c] = item (positions p) [i; c] - item (positions p) [j; c].
Proof.
  intros Hs. unfold positions_diff. destruct p as [ms xs vs hh kk n F rd].
  np_open xs. unfold newaxis, ndim. simpl.
  unfold broadcast2, broadcast_shapes, bindex. np_simpl.
  eexists. split; [reflexivity|]. split; [reflexivity|].
  intros i j c Hi Hj. simpl. now np_idx.
Qed.

Lemma reconstruct_density_items (p : ParticleList) (N : nat) :
  shape (masses p) = [N] ->
  shape (positions p) = [N; 2%nat] ->
  exists dens, reconstruct_density p = Ok dens /\ shape dens = [N] /\
    forall i, (i < N)%nat ->
      item dens [i] =
        sum_upto N (fun j =>
          item (masses p) [j]
          * kernelValue (item (positions p) [i; O] - item (positions p) [j; O])
              (item (positions p) [i; 1%nat] - item (positions p) [j; 1%nat])
              (h p)).
Proof.
  intros Hm Hx.
  destruct (positions_diff_pairs p N Hx) as (D & HD & HsD & HiD).
  destruct (gaussian_pairs (h p) D N N HsD) as (w & Hw & Hsw & Hiw).
  unfold reconstruct_density. rewrite HD. simpl.
  destruct p as [ms xs vs hh kk n F rd]. simpl in *.
  np_open ms. unfold newaxis, ndim. simpl. rewrite Hw. simpl.
  np_open w. unfold broadcast2, broadcast_shapes, bindex. np_simpl.
  unfold sum_axis1. simpl.
  eexists. split; [reflexivity|]. split; [reflexivity|].
  intros i Hi. simpl. apply sum_upto_ext. intros j Hj.
  np_idx. rewrite Hiw, !HiD by assumption.
  now rewrite gaussian_of_norm_closed.
Qed.

(* ===================================================================== *)
(** * Pressure *)
(* ===================================================================== *)

Lemma eval_pressure_items (p : ParticleList) (densities rd : ndarray) (N : nat) :
  rest_densities p = Some rd ->
  shape rd = [N] ->
  shape densities = [N] ->
  exists P, eval_pressure p densities = Ok P /\ shape P = [N] /\
    forall i, (i < N)%nat ->
      item P [i] = k p * Rmax (item densities [i] / item rd [i] - 1) 0.
Proof.
  intros Hrd Hsrd Hsd. unfold eval_pressure, get_rest_densities.
  rewrite Hrd. simpl. np_open rd. np_open densities.
  unfold broadcast2, broadcast_shapes, bindex. np_simpl.
  eexists. split; [reflexivity|]. split; [reflexivity|].
  intros i Hi. simpl. now np_idx.
Qed.

(** The sum [eval_pressure_grad] returns, as the source computes it: every
    column array of shape [(N, 1)] is read at the summed index [j]. *)
Lemma eval_pressure_grad_items (p : ParticleList) (densities rd : ndarray) (N : nat) :
  shape (masses p) = [N] ->
  shape (positions p) = [N; 2%nat] ->
  rest_densities p = Some rd ->
  shape rd = [N] ->
  shape densities = [N] ->
  exists G, eval_pressure_grad p densities = Ok G /\ shape G = [N; 2%nat] /\
    forall i c, (i < N)%nat ->
      item G [i; c] =
        sum_upto N (fun j =>
          let P := k p * Rmax (item densities [j] / item rd [j] - 1) 0 in
          item densities [j] * item (masses p) [j]
          * (P / item densities [j] ^ 2 + P / item densities [j] ^ 2)
          * kernelGradient
              (item (positions p) [i; O] - item (positions p) [j; O])
              (item (positions p) [i; 1%nat] - item (positions p) [j; 1%nat])
              (h p)
              (item (positions p) [i; c] - item (positions p) [j; c])).
Proof.
  intros Hm Hx Hrd Hsrd Hsd.
  destruct (eval_pressure_items p densities rd N Hrd Hsrd Hsd) as (P & HP & HsP & HiP).
  destruct (positions_diff_pairs p N Hx) as (D & HD & HsD & HiD).
  destruct (gaussian_grad_pairs (h p) D N N HsD) as (gw & Hgw & Hsgw & Higw).
  unfold eval_pressure_grad. rewrite HP. simpl. rewrite HD. simpl.
  rewrite Hgw. simpl.
  destruct p as [ms xs vs hh kk n F rd0]. simpl in *.
  np_open P. np_open densities. np_open ms. np_open gw.
  unfold newaxis, ndim. simpl.
  unfold broadcast2, broadcast_shapes, bindex. np_simpl.
  unfold sum_axis1. simpl.
  eexists. split; [reflexivity|]. split; [reflexivity|].
  intros i c Hi. simpl. apply sum_upto_ext. intros j Hj.
  np_idx. rewrite Higw, !HiD, HiP by assumption.
  now rewrite gaussian_grad_of_norm_closed.
Qed.

(* ===================================================================== *)
(** * Integration *)
(* ===================================================================== *)

Lemma apply_gravity_force_items (p : ParticleList) (g : ndarray) (dt : R) (N : nat) :
  shape (velocities p) = [N; 2%nat] ->
  shape g = [2%nat] ->
  exists V, apply_gravity_force p g dt = Ok V /\ shape V = [N; 2%nat] /\
    forall i c,
      item V [i; c] =
        if (i <? fluid_bound p N)%nat
        then item (velocities p) [i; c] + dt * item g [c]
        else item (velocities p) [i; c].
Proof.
  intros Hv Hg. unfold apply_gravity_force, fluid_bound.
  destruct p as [ms xs vs hh kk n F rd]. simpl in *.
  np_open vs. np_open g.
  unfold iadd_slice0, copy. simpl.
  unfold broadcast_shapes, bindex. np_simpl.
  eexists. split; [reflexivity|]. split; [reflexivity|].
  intros i c. simpl. now np_idx.
Qed.

Lemma apply_pressure_force_items (p : ParticleList)
    (vel densities grads : ndarray) (dt : R) (N : nat) :
  shape (masses p) = [N] ->
  shape vel = [N; 2%nat] ->
  shape densities = [N] ->
  shape grads = [N; 2%nat] ->
  exists V, apply_pressure_force p vel densities grads dt = Ok V /\
    shape V = [N; 2%nat] /\
    forall i c, (i < N)%nat ->
      item V [i; c] =
        item vel [i; c]
        + dt * ((-1) / item densities [i] * item grads [i; c])
          / item (masses p) [i].
Proof.
  intros Hm Hv Hd Hg. unfold apply_pressure_force.
  destruct p as [ms xs vs hh kk n F rd]. simpl in *.
  np_open ms. np_open vel. np_open densities. np_open grads.
  unfold newaxis, ndim. simpl.
  unfold broadcast2, broadcast_shapes, bindex. np_simpl.
  eexists. split; [reflexivity|]. split; [reflexivity|].
  intros i c Hi. simpl. now np_idx.
Qed.

(** Whatever the shapes, a position update that succeeds leaves every row
    from the slice bound on as it was. *)
Lemma update_positions_frozen (p : ParticleList) (vel new : ndarray) (dt : R) :
  update_positions p vel dt = Ok new ->
  shape new = shape (positions p) /\
  forall i rest,
    (fluid_bound p (hd O (shape (positions p))) <= i)%nat ->
    item new (i :: rest) = item (positions p) (i :: rest).
Proof.
  unfold update_positions, slice0, iadd_slice0, copy, fluid_bound.
  destruct (shape vel) as [|v0 vrest]; simpl; [discriminate|].
  destruct (shape (positions p)) as [|n0 rest0] eqn:Hs; simpl; [discriminate|].
  destruct (broadcast_shapes _ _) as [s'|]; [|discriminate].
  destruct (shape_eqb _ _); [|discriminate].
  intros Hnew. injection Hnew as <-. simpl. split; [reflexivity|].
  intros i rest Hi.
  destruct (i <? slice_bound (num_fluid_particles p) n0)%nat eqn:E;
    [apply Nat.ltb_lt in E; lia | reflexivity].
Qed.

Lemma update_positions_items (p : ParticleList) (vel : ndarray) (dt : R) (N : nat) :
  shape (positions p) = [N; 2%nat] ->
  shape vel = [N; 2%nat] ->
  exists X, update_positions p vel dt = Ok X /\ shape X = [N; 2%nat] /\
    forall i c,
      item X [i; c] =
        if (i <? fluid_bound p N)%nat
        then item (positions p) [i; c] + dt * item vel [i; c]
        else item (positions p) [i; c].
Proof.
  intros Hx Hv. unfold update_positions, fluid_bound.
  destruct p as [ms xs vs hh kk n F rd]. simpl in *.
  np_open xs. np_open vel.
  unfold slice0, iadd_slice0, copy. simpl.
  unfold broadcast_shapes, bindex. np_simpl.
  eexists. split; [reflexivity|]. split; [reflexivity|].
  intros i c. simpl. destruct (i <? slice_bound F N)%nat eqn:E; [|reflexivity].
  apply Nat.ltb_lt in E. now np_idx.
Qed.

(* ===================================================================== *)
(** * One step, many steps, construction *)
(* ===================================================================== *)

Lemma consistent_set (N : nat) (p : ParticleList) (X V : ndarray) :
  consistent N p ->
  shape X = [N; 2%nat] ->
  shape V = [N; 2%nat] ->
  consistent N (set_velocities V (set_positions X p)).
Proof.
  intros (Hm & _ & _ & Hn & Hrd) HX HV.
  unfold consistent. simpl. auto.
Qed.

(** A step on a consistent state runs through all five stages. *)
Lemma timestep_stages (p : ParticleList) (g : ndarray) (dt : R) (N : nat) :
  consistent N p ->
  shape g = [2%nat] ->
  exists dens G V1 V X,
    reconstruct_density p = Ok dens /\ shape dens = [N] /\
    eval_pressure_grad p dens = Ok G /\ shape G = [N; 2%nat] /\
    apply_gravity_force p g dt = Ok V1 /\ shape V1 = [N; 2%nat] /\
    apply_pressure_force p V1 dens G dt = Ok V /\ shape V = [N; 2%nat] /\
    update_positions p V dt = Ok X /\ shape X = [N; 2%nat] /\
    timestep p g dt = Ok (set_velocities V (set_positions X p)).
Proof.
  intros (Hm & Hx & Hv & Hn & rd & Hrd & Hsrd) Hg.
  destruct (reconstruct_density_items p N Hm Hx) as (dens & Hd & Hsd & _).
  destruct (eval_pressure_grad_items p dens rd N Hm Hx Hrd Hsrd Hsd)
    as (G & HG & HsG & _).
  destruct (apply_gravity_force_items p g dt N Hv Hg) as (V1 & HV1 & HsV1 & _).
  destruct (apply_pressure_force_items p V1 dens G dt N Hm HsV1 Hsd HsG)
    as (V & HV & HsV & _).
  destruct (update_positions_items p V dt N Hx HsV) as (X & HX & HsX & _).
  exists dens, G, V1, V, X. repeat (split; [assumption|]).
  unfold timestep. rewrite Hd. simpl. rewrite HG. simpl. rewrite HV1. simpl.
  rewrite HV. simpl. now rewrite HX.
Qed.

(** What a step that returns leaves alone, whatever the shapes. *)
Lemma timestep_frame (p p' : ParticleList) (g : ndarray) (dt : R) :
  timestep p g dt = Ok p' ->
  masses p' = masses p /\ h p' = h p /\ k p' = k p /\
  num_particles p' = num_particles p /\
  num_fluid_particles p' = num_fluid_particles p /\
  rest_densities p' = rest_densities p /\
  shape (positions p') = shape (positions p) /\
  forall i rest,
    (fluid_bound p (hd O (shape (positions p))) <= i)%nat ->
    item (positions p') (i :: rest) = item (positions p) (i :: rest).
Proof.
  unfold timestep.
  destruct (reconstruct_density p) as [dens|]; simpl; [|discriminate].
  destruct (eval_pressure_grad p dens) as [G|]; simpl; [|discriminate].
  destruct (apply_gravity_force p g dt) as [V1|]; simpl; [|discriminate].
  destruct (apply_pressure_force p V1 dens G dt) as [V|]; simpl; [|discriminate].
  destruct (update_positions p V dt) as [X|] eqn:HX; simpl; [|discriminate].
  intros Hp'. injection Hp' as <-. simpl.
  destruct (update_positions_frozen p V X dt HX) as (Hs & Hfrozen).
  repeat (split; [reflexivity|]). split; assumption.
Qed.

Lemma run_frame (K : nat) (g : ndarray) (dt : R) :
  forall p pK,
    run K p g dt = Ok pK ->
    masses pK = masses p /\ h pK = h p /\ k pK = k p /\
    num_particles pK = num_particles p /\
    num_fluid_particles pK = num_fluid_particles p /\
    rest_densities pK = rest_densities p /\
    shape (positions pK) = shape (positions p) /\
    forall i rest,
      (fluid_bound p (hd O (shape (positions p))) <= i)%nat ->
      item (positions pK) (i :: rest) = item (positions p) (i :: rest).
Proof.
  induction K as [|K IH]; intros p pK; simpl.
  - intros HpK. injection HpK as <-. repeat split; reflexivity.
  - destruct (timestep p g dt) as [p1|] eqn:H1; simpl; [|discriminate].
    intros HpK.
    destruct (timestep_frame p p1 g dt H1)
      as (Hm1 & Hh1 & Hk1 & Hn1 & HF1 & Hrd1 & Hs1 & Hx1).
    destruct (IH p1 pK HpK) as (Hm & Hh & Hk & Hn & HF & Hrd & Hs & Hx).
    repeat split; try congruence.
    intros i rest Hi. rewrite <- Hx1 by assumption. apply Hx.
    unfold fluid_bound in *. now rewrite HF1, Hs1.
Qed.

Lemma run_consistent (K : nat) (g : ndarray) (dt : R) (N : nat) :
  shape g = [2%nat] ->
  forall p, consistent N p ->
    exists pK, run K p g dt = Ok pK /\ consistent N pK.
Proof.
  intros Hg. induction K as [|K IH]; intros p Hp; simpl.
  - now exists p.
  - destruct (timestep_stages p g dt N Hp Hg)
      as (dens & G & V1 & V & X & _ & _ & _ & _ & _ & _ & _ & HsV & _ & HsX & Hstep).
    rewrite Hstep. simpl. apply IH. now apply consistent_set.
Qed.

Lemma init_consistent (ms xs vs : ndarray) (hh kk : R) (F : Z) (N : nat) :
  shape ms = [N] ->
  shape xs = [N; 2%nat] ->
  shape vs = [N; 2%nat] ->
  exists rd,
    reconstruct_density (mk_particles ms xs vs hh kk N F None) = Ok rd /\
    shape rd = [N] /\
    init ms xs vs hh kk F = Ok (mk_particles ms xs vs hh kk N F (Some rd)).
Proof.
  intros Hm Hx Hv.
  destruct (reconstruct_density_items (mk_particles ms xs vs hh kk N F None) N Hm Hx)
    as (rd & Hrd & Hsrd & _).
  exists rd. repeat (split; [assumption|]).
  unfold init. rewrite Hx. rewrite Hrd. reflexivity.
Qed.

Lemma kernelGradient_against (dx dy h dc : R) :
  0 < h -> dc < 0 -> 0 < kernelGradient dx dy h dc.
Proof.
  intros Hh Hdc. unfold kernelGradient.
  assert (HA : 0 < 1 / (h ^ 3 * sqrt (2 * PI))).
  { apply Rdiv_lt_0_compat; [lra|].
    apply Rmult_lt_0_compat; [apply pow_lt; assumption|apply sqrt_2PI_pos]. }
  pose proof (exp_pos (- ((dx ^ 2 + dy ^ 2) / (2 * h ^ 2)))) as HE.
  assert (HAE : 0 < 1 / (h ^ 3 * sqrt (2 * PI))
                    * exp (- ((dx ^ 2 + dy ^ 2) / (2 * h ^ 2))))
    by (apply Rmult_lt_0_compat; assumption).
  nra.
Qed.

(** A column array of shape [(N, 1)] multiplied with a tensor of shape
    [(N, N, 2)] is read along the tensor's middle axis. *)
Lemma column_times_tensor (col tensor : ndarray) (N : nat) :
  shape col = [N; 1%nat] ->
  shape tensor = [N; N; 2%nat] ->
  exists r, broadcast2 Rmult col tensor = Ok r /\ shape r = [N; N; 2%nat] /\
    forall i j c, (i < N)%nat -> (j < N)%nat ->
      item r [i; j; c] = item col [j; O] * item tensor [i; j; c].
Proof.
  intros Hc Ht. np_open col. np_open tensor.
  unfold broadcast2, broadcast_shapes, bindex. np_simpl.
  eexists. split; [reflexivity|]. split; [reflexivity|].
  intros i j c Hi Hj. simpl. now np_idx.
Qed.

Lemma bdim_none (a b : nat) :
  bdim a b = None <-> ~ (a = b \/ a = 1%nat \/ b = 1%nat).
Proof.
  unfold bdim.
  destruct (a =? b)%nat eqn:E1; [apply Nat.eqb_eq in E1|apply Nat.eqb_neq in E1].
  - split; [discriminate|]. intros H. exfalso. apply H. now left.
  - destruct (a =? 1)%nat eqn:E2; [apply Nat.eqb_eq in E2|apply Nat.eqb_neq in E2].
    + split; [discriminate|]. intros H. exfalso. apply H. right. now left.
    + destruct (b =? 1)%nat eqn:E3; [apply Nat.eqb_eq in E3|apply Nat.eqb_neq in E3].
      * split; [discriminate|]. intros H. exfalso. apply H. right. now right.
      * split; [|reflexivity]. intros _ [H|[H|H]]; contradiction.
Qed.

(** Construction runs the density estimator and nothing else: whether it
    returns depends on the masses and the positions alone. *)
Lemma init_broadcast (ms xs vs : ndarray) (hh kk : R) (F : Z) (M N : nat) :
  shape ms = [M] ->
  shape xs = [N; 2%nat] ->
  match bdim M N with
  | Some _ =>
      exists rd, init ms xs vs hh kk F
                 = Ok (mk_particles ms xs vs hh kk N F (Some rd))
  | None => init ms xs vs hh kk F = Raise ValueError
  end.
Proof.
  intros Hm Hx. unfold init. rewrite Hx.
  set (self := mk_particles ms xs vs hh kk N F None).
  destruct (positions_diff_pairs self N Hx) as (D & HD & HsD & _).
  destruct (gaussian_pairs hh D N N HsD) as (w & Hw & Hsw & _).
  unfold reconstruct_density. rewrite HD. simpl.
  np_open ms. unfold newaxis, ndim. simpl. rewrite Hw. simpl.
  np_open w. unfold broadcast2, broadcast_shapes. np_simpl.
  destruct (bdim M N) as [d|]; simpl; [|reflexivity].
  eexists. reflexivity.
Qed.

Lemma Rmax_ratio_self (x : R) : Rmax (x / x - 1) 0 = 0.
Proof.
  destruct (Req_dec x 0) as [->|Hx].
  - unfold Rdiv. rewrite Rmult_0_l. unfold Rmax.
    destruct (Rle_dec (0 - 1) 0); lra.
  - replace (x / x) with 1 by (field; assumption).
    unfold Rmax. destruct (Rle_dec (1 - 1) 0); lra.
Qed.

(* ===================================================================== *)
(** * The claims *)
(* ===================================================================== *)

(** C10.  For a tensor [d] of 2D displacements and every [h > 0], each entry
    of [gaussian d h] is [1/(h sqrt(2 pi)) exp(-|d|^2/(2 h^2))] and each
    component of [gaussian_grad d h] is
    [-1/(h^3 sqrt(2 pi)) exp(-|d|^2/(2 h^2))] times that component of [d];
    at [d = 0] the value is the positive constant [1/(h sqrt(2 pi))] and the
    gradient is the zero vector. *)
Theorem kernel_closed_forms (d : ndarray) (h : R) (n m : nat) :
  0 < h ->
  shape d = [n; m; 2%nat] ->
  exists w gw,
    gaussian d h = Ok w /\ shape w = [n; m] /\
    gaussian_grad d h = Ok gw /\ shape gw = [n; m; 2%nat] /\
    forall i j, (i < n)%nat -> (j < m)%nat ->
      let dx := item d [i; j; O] in
      let dy := item d [i; j; 1%nat] in
      item w [i; j]
        = 1 / (h * sqrt (2 * PI)) * exp (- ((dx ^ 2 + dy ^ 2) / (2 * h ^ 2))) /\
      (forall c,
         item gw [i; j; c]
           = - (1 / (h ^ 3 * sqrt (2 * PI)))
             * exp (- ((dx ^ 2 + dy ^ 2) / (2 * h ^ 2))) * item d [i; j; c]) /\
      (dx = 0 -> dy = 0 ->
         item w [i; j] = 1 / (h * sqrt (2 * PI)) /\
         0 < item w [i; j] /\
         item gw [i; j; O] = 0 /\ item gw [i; j; 1%nat] = 0).
Proof.
  intros Hh Hs.
  destruct (gaussian_pairs h d n m Hs) as (w & Hw & Hsw & Hiw).
  destruct (gaussian_grad_pairs h d n m Hs) as (gw & Hgw & Hsgw & Higw).
  exists w, gw. repeat (split; [assumption|]).
  intros i j Hi Hj dx dy.
  assert (Hval : item w [i; j] = kernelValue dx dy h)
    by (rewrite Hiw; apply gaussian_of_norm_closed).
  assert (Hgrad : forall c, item gw [i; j; c] = kernelGradient dx dy h (item d [i; j; c]))
    by (intros c; rewrite Higw by assumption; apply gaussian_grad_of_norm_closed).
  split; [exact Hval|]. split; [exact Hgrad|].
  intros Hx Hy. rewrite Hval, !Hgrad.
  fold dx dy. rewrite Hx, Hy.
  repeat split.
  - apply kernelValue_origin.
  - now apply kernelValue_pos.
  - apply kernelGradient_origin.
  - apply kernelGradient_origin.
Qed.

Lemma kernel_closed_forms_witness :
  0 < 1 /\ shape Fixtures.d_pair = [1%nat; 2%nat; 2%nat] /\
  exists w gw,
    gaussian Fixtures.d_pair 1 = Ok w /\ shape w = [1%nat; 2%nat] /\
    gaussian_grad Fixtures.d_pair 1 = Ok gw /\ shape gw = [1%nat; 2%nat; 2%nat] /\
    forall i j, (i < 1)%nat -> (j < 2)%nat ->
      let dx := item Fixtures.d_pair [i; j; O] in
      let dy := item Fixtures.d_pair [i; j; 1%nat] in
      item w [i; j]
        = 1 / (1 * sqrt (2 * PI)) * exp (- ((dx ^ 2 + dy ^ 2) / (2 * 1 ^ 2))) /\
      (forall c,
         item gw [i; j; c]
           = - (1 / (1 ^ 3 * sqrt (2 * PI)))
             * exp (- ((dx ^ 2 + dy ^ 2) / (2 * 1 ^ 2))) * item Fixtures.d_pair [i; j; c]) /\
      (dx = 0 -> dy = 0 ->
         item w [i; j] = 1 / (1 * sqrt (2 * PI)) /\
         0 < item w [i; j] /\
         item gw [i; j; O] = 0 /\ item gw [i; j; 1%nat] = 0).
Proof.
  split; [lra|]. split; [reflexivity|].
  apply (kernel_closed_forms Fixtures.d_pair 1 1 2); [lra|reflexivity].
Defined.

(** C3.  On a state of [N] particles the density estimator returns, for
    every index [i], the sum over all [N] particles [j] of
    [mass_j * kernelValue(position_i - position_j, h)]; the sum has a term
    for [j = i], so a lone particle has density [mass * kernelValue(0, h)]. *)
Theorem reconstruct_density_all_pairs (p : ParticleList) (N : nat) :
  shape (masses p) = [N] ->
  shape (positions p) = [N; 2%nat] ->
  exists dens,
    reconstruct_density p = Ok dens /\ shape dens = [N] /\
    (forall i, (i < N)%nat ->
       item dens [i] =
         sum_upto N (fun j =>
           item (masses p) [j]
           * kernelValue (item (positions p) [i; O] - item (positions p) [j; O])
               (item (positions p) [i; 1%nat] - item (positions p) [j; 1%nat])
               (h p))) /\
    (N = 1%nat -> item dens [O] = item (masses p) [O] * kernelValue 0 0 (h p)).
Proof.
  intros Hm Hx.
  destruct (reconstruct_density_items p N Hm Hx) as (dens & Hd & Hsd & Hid).
  exists dens. repeat (split; [assumption|]).
  intros ->. rewrite Hid by lia. simpl.
  rewrite !Rminus_diag. lra.
Qed.

Lemma reconstruct_density_all_pairs_witness :
  shape (masses Fixtures.p_uneven) = [2%nat] /\
  shape (positions Fixtures.p_uneven) = [2%nat; 2%nat] /\
  exists dens,
    reconstruct_density Fixtures.p_uneven = Ok dens /\ shape dens = [2%nat] /\
    (forall i, (i < 2)%nat ->
       item dens [i] =
         sum_upto 2 (fun j =>
           item (masses Fixtures.p_uneven) [j]
           * kernelValue
               (item (positions Fixtures.p_uneven) [i; O]
                - item (positions Fixtures.p_uneven) [j; O])
               (item (positions Fixtures.p_uneven) [i; 1%nat]
                - item (positions Fixtures.p_uneven) [j; 1%nat])
               (h Fixtures.p_uneven))) /\
    (2%nat = 1%nat ->
       item dens [O]
       = item (masses Fixtures.p_uneven) [O] * kernelValue 0 0 (h Fixtures.p_uneven)).
Proof.
  split; [reflexivity|]. split; [reflexivity|].
  apply (reconstruct_density_all_pairs Fixtures.p_uneven 2); reflexivity.
Defined.

(** C4, as amended.  For densities and rest densities of [N] particles the
    pressure solver returns [pressure(i) = k * max(density_i / restDensity_i
    - 1, 0)] at every index, and this pressure is [>= 0] whenever the
    stiffness [k] is [>= 0] and the rest density of the particle is not
    zero. *)
Theorem eval_pressure_clipped (p : ParticleList) (densities rd : ndarray) (N : nat) :
  rest_densities p = Some rd ->
  shape rd = [N] ->
  shape densities = [N] ->
  exists P,
    eval_pressure p densities = Ok P /\ shape P = [N] /\
    forall i, (i < N)%nat ->
      item P [i] = k p * Rmax (item densities [i] / item rd [i] - 1) 0 /\
      (0 <= k p -> item rd [i] <> 0 -> 0 <= item P [i]).
Proof.
  intros Hrd Hsrd Hsd.
  destruct (eval_pressure_items p densities rd N Hrd Hsrd Hsd) as (P & HP & HsP & HiP).
  exists P. repeat (split; [assumption|]).
  intros i Hi. split; [now apply HiP|].
  intros Hk _. rewrite HiP by assumption.
  apply Rmult_le_pos; [assumption|apply Rmax_r].
Qed.

Lemma eval_pressure_clipped_witness :
  rest_densities Fixtures.p_uneven = Some (array1 [1; 1]) /\
  shape (array1 [1; 1]) = [2%nat] /\
  shape Fixtures.dens_uneven = [2%nat] /\
  exists P,
    eval_pressure Fixtures.p_uneven Fixtures.dens_uneven = Ok P /\
    shape P = [2%nat] /\
    forall i, (i < 2)%nat ->
      item P [i]
      = k Fixtures.p_uneven
        * Rmax (item Fixtures.dens_uneven [i] / item (array1 [1; 1]) [i] - 1) 0 /\
      0 <= item P [i].
Proof.
  repeat (split; [reflexivity|]).
  destruct (eval_pressure_clipped Fixtures.p_uneven Fixtures.dens_uneven
              (array1 [1; 1]) 2 eq_refl eq_refl eq_refl) as (P & HP & HsP & HiP).
  exists P. split; [exact HP|]. split; [exact HsP|].
  intros i Hi. destruct (HiP i Hi) as (Hval & Hpos).
  split; [exact Hval|]. apply Hpos.
  - simpl. lra.
  - destruct i as [|[|i]]; simpl; [lra|lra|lia].
Defined.

(** C4 fails as stated: with stiffness [k = -1] a particle at twice its
    rest density gets the pressure [-1]. *)
Lemma eval_pressure_negative_stiffness :
  exists P,
    eval_pressure Fixtures.p_neg_k Fixtures.dens_double = Ok P /\
    item P [O] = -1 /\ ~ (0 <= item P [O]).
Proof.
  eexists. split; [reflexivity|]. simpl.
  assert (Hmax : Rmax (2 / 1 - 1) 0 = 1).
  { unfold Rmax. destruct (Rle_dec (2 / 1 - 1) 0); lra. }
  rewrite Hmax. split; lra.
Qed.

(** C7.  For nonzero densities and masses, [apply_pressure_force] gives
    every index in [[0, N)], whatever the fluid count, the velocity
    [velocity_i + dt * force_i / mass_i] with
    [force_i = - pressureGrad_i / density_i]. *)
Theorem apply_pressure_force_every_index (p : ParticleList)
    (vel densities grads : ndarray) (dt : R) (N : nat) :
  shape (masses p) = [N] ->
  shape vel = [N; 2%nat] ->
  shape densities = [N] ->
  shape grads = [N; 2%nat] ->
  (forall i, (i < N)%nat -> item densities [i] <> 0) ->
  (forall i, (i < N)%nat -> item (masses p) [i] <> 0) ->
  exists V,
    apply_pressure_force p vel densities grads dt = Ok V /\
    shape V = [N; 2%nat] /\
    forall i c, (i < N)%nat ->
      let force := - (item grads [i; c] / item densities [i]) in
      item V [i; c] = item vel [i; c] + dt * force / item (masses p) [i].
Proof.
  intros Hm Hv Hd Hg Hdens Hmass.
  destruct (apply_pressure_force_items p vel densities grads dt N Hm Hv Hd Hg)
    as (V & HV & HsV & HiV).
  exists V. repeat (split; [assumption|]).
  intros i c Hi force. rewrite HiV by assumption. unfold force.
  specialize (Hdens i Hi). specialize (Hmass i Hi). field. auto.
Qed.

Lemma apply_pressure_force_every_index_witness :
  shape (masses Fixtures.p_uneven) = [2%nat] /\
  shape Fixtures.vs2 = [2%nat; 2%nat] /\
  shape Fixtures.dens_uneven = [2%nat] /\
  shape Fixtures.xs2 = [2%nat; 2%nat] /\
  (forall i, (i < 2)%nat -> item Fixtures.dens_uneven [i] <> 0) /\
  (forall i, (i < 2)%nat -> item (masses Fixtures.p_uneven) [i] <> 0) /\
  exists V,
    apply_pressure_force Fixtures.p_uneven Fixtures.vs2 Fixtures.dens_uneven
      Fixtures.xs2 (1 / 2) = Ok V /\
    shape V = [2%nat; 2%nat] /\
    forall i c, (i < 2)%nat ->
      let force := - (item Fixtures.xs2 [i; c] / item Fixtures.dens_uneven [i]) in
      item V [i; c]
      = item Fixtures.vs2 [i; c]
        + 1 / 2 * force / item (masses Fixtures.p_uneven) [i].
Proof.
  assert (Hd : forall i, (i < 2)%nat -> item Fixtures.dens_uneven [i] <> 0).
  { intros [|[|i]] Hi; simpl; [lra|lra|lia]. }
  assert (Hm : forall i, (i < 2)%nat -> item (masses Fixtures.p_uneven) [i] <> 0).
  { intros [|[|i]] Hi; simpl; [lra|lra|lia]. }
  repeat (split; [reflexivity|]). split; [exact Hd|]. split; [exact Hm|].
  apply (apply_pressure_force_every_index Fixtures.p_uneven Fixtures.vs2
           Fixtures.dens_uneven Fixtures.xs2 (1 / 2) 2);
    solve [reflexivity | assumption].
Defined.

(** C2.  For nonzero densities, [eval_pressure_grad] returns at every
    index [i] the sum over all [N] particles [j] of
    [density_j * mass_j * (2 * pressure_j / density_j^2)
     * kernelGradient(position_i - position_j, h)]: density, mass and
    pressure are those of the summed neighbour [j], because a column array
    of shape [(N, 1)] meets the [(N, N, 2)] gradient tensor along its middle
    axis. *)
Theorem eval_pressure_grad_neighbour_factors
    (p : ParticleList) (densities rd : ndarray) (N : nat) :
  shape (masses p) = [N] ->
  shape (positions p) = [N; 2%nat] ->
  rest_densities p = Some rd ->
  shape rd = [N] ->
  shape densities = [N] ->
  (forall i, (i < N)%nat -> item densities [i] <> 0) ->
  exists G,
    eval_pressure_grad p densities = Ok G /\ shape G = [N; 2%nat] /\
    (forall i c, (i < N)%nat ->
       item G [i; c] =
         sum_upto N (fun j =>
           item densities [j] * item (masses p) [j]
           * (2 * pressure p densities rd j / item densities [j] ^ 2)
           * kernelGradient
               (item (positions p) [i; O] - item (positions p) [j; O])
               (item (positions p) [i; 1%nat] - item (positions p) [j; 1%nat])
               (h p)
               (item (positions p) [i; c] - item (positions p) [j; c]))) /\
    (forall col tensor,
       shape col = [N; 1%nat] -> shape tensor = [N; N; 2%nat] ->
       exists r, broadcast2 Rmult col tensor = Ok r /\
         forall i j c, (i < N)%nat -> (j < N)%nat ->
           item r [i; j; c] = item col [j; O] * item tensor [i; j; c]).
Proof.
  intros Hm Hx Hrd Hsrd Hsd Hnz.
  destruct (eval_pressure_grad_items p densities rd N Hm Hx Hrd Hsrd Hsd)
    as (G & HG & HsG & HiG).
  exists G. repeat (split; [assumption|]). split.
  - intros i c Hi. rewrite HiG by assumption.
    apply sum_upto_ext. intros j Hj. cbv zeta. unfold pressure.
    specialize (Hnz j Hj). f_equal. f_equal. field. assumption.
  - intros col tensor Hc Ht.
    destruct (column_times_tensor col tensor N Hc Ht) as (r & Hr & _ & Hir).
    now exists r.
Qed.

Lemma eval_pressure_grad_neighbour_factors_witness :
  shape (masses Fixtures.p_uneven) = [2%nat] /\
  shape (positions Fixtures.p_uneven) = [2%nat; 2%nat] /\
  rest_densities Fixtures.p_uneven = Some (array1 [1; 1]) /\
  shape (array1 [1; 1]) = [2%nat] /\
  shape Fixtures.dens_uneven = [2%nat] /\
  (forall i, (i < 2)%nat -> item Fixtures.dens_uneven [i] <> 0) /\
  exists G,
    eval_pressure_grad Fixtures.p_uneven Fixtures.dens_uneven = Ok G /\
    shape G = [2%nat; 2%nat].
Proof.
  assert (Hd : forall i, (i < 2)%nat -> item Fixtures.dens_uneven [i] <> 0).
  { intros [|[|i]] Hi; simpl; [lra|lra|lia]. }
  repeat (split; [reflexivity|]). split; [exact Hd|].
  destruct (eval_pressure_grad_neighbour_factors Fixtures.p_uneven
              Fixtures.dens_uneven (array1 [1; 1]) 2
              eq_refl eq_refl eq_refl eq_refl eq_refl Hd)
    as (G & HG & HsG & _).
  exists G. split; assumption.
Defined.

(** C1, as amended.  For nonzero densities, the pressure gradient the
    solver computes at index [i] is the sum over all [N] particles [j] of
    [density_j * mass_j * (pressure_j/density_j^2 + pressure_j/density_j^2)
     * kernelGradient(position_i - position_j, h)]: both addends of the
    symmetrization factor use the pressure and density of the summed
    particle [j], so the bracket equals [2 * pressure_j / density_j^2] and
    changes with [j] inside the sum. *)
Theorem eval_pressure_grad_symmetrization
    (p : ParticleList) (densities rd : ndarray) (N : nat) :
  shape (masses p) = [N] ->
  shape (positions p) = [N; 2%nat] ->
  rest_densities p = Some rd ->
  shape rd = [N] ->
  shape densities = [N] ->
  (forall i, (i < N)%nat -> item densities [i] <> 0) ->
  exists G,
    eval_pressure_grad p densities = Ok G /\ shape G = [N; 2%nat] /\
    (forall i c, (i < N)%nat ->
       item G [i; c] =
         sum_upto N (fun j =>
           item densities [j] * item (masses p) [j]
           * (pressure p densities rd j / item densities [j] ^ 2
              + pressure p densities rd j / item densities [j] ^ 2)
           * kernelGradient
               (item (positions p) [i; O] - item (positions p) [j; O])
               (item (positions p) [i; 1%nat] - item (positions p) [j; 1%nat])
               (h p)
               (item (positions p) [i; c] - item (positions p) [j; c]))) /\
    (forall j, (j < N)%nat ->
       pressure p densities rd j / item densities [j] ^ 2
       + pressure p densities rd j / item densities [j] ^ 2
       = 2 * pressure p densities rd j / item densities [j] ^ 2).
Proof.
  intros Hm Hx Hrd Hsrd Hsd Hnz.
  destruct (eval_pressure_grad_items p densities rd N Hm Hx Hrd Hsrd Hsd)
    as (G & HG & HsG & HiG).
  exists G. split; [exact HG|]. split; [exact HsG|]. split.
  - exact HiG.
  - intros j Hj. specialize (Hnz j Hj). field. assumption.
Qed.

Lemma eval_pressure_grad_symmetrization_witness :
  shape (masses Fixtures.p_uneven) = [2%nat] /\
  shape (positions Fixtures.p_uneven) = [2%nat; 2%nat] /\
  rest_densities Fixtures.p_uneven = Some (array1 [1; 1]) /\
  shape (array1 [1; 1]) = [2%nat] /\
  shape Fixtures.dens_uneven = [2%nat] /\
  (forall i, (i < 2)%nat -> item Fixtures.dens_uneven [i] <> 0) /\
  forall j, (j < 2)%nat ->
    pressure Fixtures.p_uneven Fixtures.dens_uneven (array1 [1; 1]) j
      / item Fixtures.dens_uneven [j] ^ 2
    + pressure Fixtures.p_uneven Fixtures.dens_uneven (array1 [1; 1]) j
      / item Fixtures.dens_uneven [j] ^ 2
    = 2 * pressure Fixtures.p_uneven Fixtures.dens_uneven (array1 [1; 1]) j
      / item Fixtures.dens_uneven [j] ^ 2.
Proof.
  assert (Hd : forall i, (i < 2)%nat -> item Fixtures.dens_uneven [i] <> 0).
  { intros [|[|i]] Hi; simpl; [lra|lra|lia]. }
  repeat (split; [reflexivity|]). split; [exact Hd|].
  destruct (eval_pressure_grad_symmetrization Fixtures.p_uneven
              Fixtures.dens_uneven (array1 [1; 1]) 2
              eq_refl eq_refl eq_refl eq_refl eq_refl Hd)
    as (G & _ & _ & _ & Hbracket).
  exact Hbracket.
Defined.

(** C1 fails as stated.  Two particles one unit apart, rest densities
    [1, 1], densities [1, 2] (both nonzero): particle 0 has pressure 0, so
    the sum of section 4.4 is 0 at [i = 0], while the solver returns a
    positive x-component there, the contribution of the compressed
    particle 1. *)
Lemma eval_pressure_grad_not_own_factors :
  (forall i, (i < 2)%nat -> item Fixtures.dens_uneven [i] <> 0) /\
  exists G,
    eval_pressure_grad Fixtures.p_uneven Fixtures.dens_uneven = Ok G /\
    pressureGrad Fixtures.p_uneven Fixtures.dens_uneven (array1 [1; 1])
      2 O O = 0 /\
    0 < item G [O; O] /\
    item G [O; O]
    <> pressureGrad Fixtures.p_uneven Fixtures.dens_uneven (array1 [1; 1])
         2 O O.
Proof.
  split.
  { intros [|[|i]] Hi; simpl; [lra|lra|lia]. }
  destruct (eval_pressure_grad_items Fixtures.p_uneven Fixtures.dens_uneven
              (array1 [1; 1]) 2 eq_refl eq_refl eq_refl eq_refl eq_refl)
    as (G & HG & _ & HiG).
  exists G. split; [exact HG|].
  assert (H0 : Rmax (1 / 1 - 1) 0 = 0).
  { unfold Rmax. destruct (Rle_dec (1 / 1 - 1) 0); lra. }
  assert (H1 : Rmax (2 / 1 - 1) 0 = 1).
  { unfold Rmax. destruct (Rle_dec (2 / 1 - 1) 0); lra. }
  assert (Hspec : pressureGrad Fixtures.p_uneven Fixtures.dens_uneven
                    (array1 [1; 1]) 2 O O = 0).
  { unfold pressureGrad, pressure. simpl. rewrite H0. lra. }
  assert (Hcode : 0 < item G [O; O]).
  { rewrite HiG by lia. simpl. rewrite H0, H1.
    pose proof (kernelGradient_against (0 - 1) (0 - 0) 1 (0 - 1)) as HK.
    assert (0 < kernelGradient (0 - 1) (0 - 0) 1 (0 - 1)) by (apply HK; lra).
    lra. }
  split; [exact Hspec|]. split; [exact Hcode|]. lra.
Qed.

(** C5.  After construction and any number [K] of steps, the rows of
    [positions] from the fluid count on (the rows of the Python slice
    [positions[F:N]]) have their construction-time values; this holds for
    every fluid count, in particular for [F < N].  Each position update
    leaves the rows outside [[0, F)] as they were. *)
Theorem boundary_positions_frozen
    (ms xs vs g : ndarray) (hh kk dt : R) (F : Z) (N K : nat) :
  shape ms = [N] ->
  shape xs = [N; 2%nat] ->
  shape vs = [N; 2%nat] ->
  shape g = [2%nat] ->
  exists p0 pK,
    init ms xs vs hh kk F = Ok p0 /\
    run K p0 g dt = Ok pK /\
    shape (positions pK) = [N; 2%nat] /\
    (forall i c, (slice_bound F N <= i)%nat ->
       item (positions pK) [i; c] = item xs [i; c]) /\
    (forall p vel dt' X,
       update_positions p vel dt' = Ok X ->
       forall i rest,
         (fluid_bound p (hd O (shape (positions p))) <= i)%nat ->
         item X (i :: rest) = item (positions p) (i :: rest)).
Proof.
  intros Hm Hx Hv Hg.
  destruct (init_consistent ms xs vs hh kk F N Hm Hx Hv) as (rd & Hrd & Hsrd & Hinit).
  set (p0 := mk_particles ms xs vs hh kk N F (Some rd)) in *.
  assert (Hp0 : consistent N p0).
  { unfold consistent, p0. simpl. repeat (split; [easy|]). now exists rd. }
  destruct (run_consistent K g dt N Hg p0 Hp0) as (pK & HpK & HcK).
  destruct (run_frame K g dt p0 pK HpK) as (_ & _ & _ & _ & _ & _ & Hs & Hfrozen).
  exists p0, pK. repeat (split; [assumption|]).
  split; [now rewrite Hs|]. split.
  - intros i c Hi. apply (Hfrozen i [c]). unfold fluid_bound, p0. simpl.
    now rewrite Hx.
  - intros p vel dt' X HX. now apply (update_positions_frozen p vel X dt').
Qed.

Lemma boundary_positions_frozen_witness :
  shape Fixtures.ms2 = [2%nat] /\
  shape Fixtures.xs2 = [2%nat; 2%nat] /\
  shape Fixtures.vs2 = [2%nat; 2%nat] /\
  shape Fixtures.g_down = [2%nat] /\
  exists p0 pK,
    init Fixtures.ms2 Fixtures.xs2 Fixtures.vs2 1 1 1%Z = Ok p0 /\
    run 3 p0 Fixtures.g_down (1 / 2) = Ok pK /\
    forall i c, (slice_bound 1%Z 2 <= i)%nat ->
      item (positions pK) [i; c] = item Fixtures.xs2 [i; c].
Proof.
  repeat (split; [reflexivity|]).
  destruct (boundary_positions_frozen Fixtures.ms2 Fixtures.xs2 Fixtures.vs2
              Fixtures.g_down 1 1 (1 / 2) 1%Z 2 3 eq_refl eq_refl eq_refl eq_refl)
    as (p0 & pK & H0 & HK & _ & Hfrozen & _).
  exists p0, pK. repeat (split; [assumption|]). exact Hfrozen.
Defined.

(** C6.  The rest densities are what the density estimator returns on the
    initial configuration; construction stores them, and after any number
    [K] of steps the particle set holds that same array: no step writes
    it. *)
Theorem rest_densities_written_once
    (ms xs vs g : ndarray) (hh kk dt : R) (F : Z) (N K : nat) :
  shape ms = [N] ->
  shape xs = [N; 2%nat] ->
  shape vs = [N; 2%nat] ->
  shape g = [2%nat] ->
  exists rd p0 pK,
    reconstruct_density (mk_particles ms xs vs hh kk N F None) = Ok rd /\
    init ms xs vs hh kk F = Ok p0 /\
    rest_densities p0 = Some rd /\
    run K p0 g dt = Ok pK /\
    rest_densities pK = Some rd /\
    (forall p p' g' dt',
       timestep p g' dt' = Ok p' -> rest_densities p' = rest_densities p).
Proof.
  intros Hm Hx Hv Hg.
  destruct (init_consistent ms xs vs hh kk F N Hm Hx Hv) as (rd & Hrd & Hsrd & Hinit).
  set (p0 := mk_particles ms xs vs hh kk N F (Some rd)) in *.
  assert (Hp0 : consistent N p0).
  { unfold consistent, p0. simpl. repeat (split; [easy|]). now exists rd. }
  destruct (run_consistent K g dt N Hg p0 Hp0) as (pK & HpK & HcK).
  destruct (run_frame K g dt p0 pK HpK) as (_ & _ & _ & _ & _ & HrdK & _).
  exists rd, p0, pK. repeat (split; [assumption|]).
  split; [reflexivity|]. split; [assumption|]. split; [exact HrdK|].
  intros p p' g' dt' Hstep.
  now destruct (timestep_frame p p' g' dt' Hstep) as (_ & _ & _ & _ & _ & H & _).
Qed.

Lemma rest_densities_written_once_witness :
  shape Fixtures.ms2 = [2%nat] /\
  shape Fixtures.xs2 = [2%nat; 2%nat] /\
  shape Fixtures.vs2 = [2%nat; 2%nat] /\
  shape Fixtures.g_down = [2%nat] /\
  exists rd p0 pK,
    init Fixtures.ms2 Fixtures.xs2 Fixtures.vs2 1 1 1%Z = Ok p0 /\
    rest_densities p0 = Some rd /\
    run 3 p0 Fixtures.g_down (1 / 2) = Ok pK /\
    rest_densities pK = Some rd.
Proof.
  repeat (split; [reflexivity|]).
  destruct (rest_densities_written_once Fixtures.ms2 Fixtures.xs2 Fixtures.vs2
              Fixtures.g_down 1 1 (1 / 2) 1%Z 2 3 eq_refl eq_refl eq_refl eq_refl)
    as (rd & p0 & pK & _ & H0 & Hrd0 & HK & HrdK & _).
  exists rd, p0, pK. repeat (split; [assumption|]). exact HrdK.
Defined.

(** C8, as amended.  The constructor validates nothing itself: it stores
    the velocities and the fluid count unread, so it returns for every
    velocities array and every fluid count.  With [M] masses and [N]
    positions in the plane it fails only when the rest-density computation
    cannot broadcast the masses against the [N] by [N] kernel matrix, that
    is when [M] differs from [N] and neither is 1; it then raises numpy's
    [ValueError], before any step. *)
Theorem init_checks_nothing_but_broadcast
    (ms xs vs : ndarray) (hh kk : R) (F : Z) (M N : nat) :
  shape ms = [M] ->
  shape xs = [N; 2%nat] ->
  ((M = N \/ M = 1%nat \/ N = 1%nat) ->
     exists p, init ms xs vs hh kk F = Ok p /\
       velocities p = vs /\ num_fluid_particles p = F) /\
  (~ (M = N \/ M = 1%nat \/ N = 1%nat) ->
     init ms xs vs hh kk F = Raise ValueError).
Proof.
  intros Hm Hx.
  pose proof (init_broadcast ms xs vs hh kk F M N Hm Hx) as Hinit.
  destruct (bdim M N) as [d|] eqn:E.
  - split.
    + intros _. destruct Hinit as (rd & Hrd). eexists. split; [exact Hrd|].
      split; reflexivity.
    + intros Hno. apply bdim_none in Hno. congruence.
  - split.
    + intros Hyes. apply bdim_none in E. contradiction.
    + intros _. exact Hinit.
Qed.

Lemma init_checks_nothing_but_broadcast_witness :
  shape Fixtures.ms2 = [2%nat] /\
  shape Fixtures.xs2 = [2%nat; 2%nat] /\
  exists p,
    init Fixtures.ms2 Fixtures.xs2 Fixtures.vs3 1 1 5%Z = Ok p /\
    velocities p = Fixtures.vs3 /\ num_fluid_particles p = 5%Z.
Proof.
  repeat (split; [reflexivity|]).
  apply (init_checks_nothing_but_broadcast Fixtures.ms2 Fixtures.xs2
           Fixtures.vs3 1 1 5%Z 2 2 eq_refl eq_refl).
  left. reflexivity.
Defined.

(** C8 fails as stated: for two particles, a velocities array of three
    rows and a fluid count of five, construction returns a particle set,
    and the mismatch surfaces only as a [ValueError] of the first step; a
    masses array of length one is accepted as well. *)
Lemma init_accepts_inconsistent_input :
  shape Fixtures.xs2 = [2%nat; 2%nat] /\
  shape Fixtures.vs3 = [3%nat; 2%nat] /\
  (exists p,
     init Fixtures.ms2 Fixtures.xs2 Fixtures.vs3 1 1 5%Z = Ok p /\
     shape (velocities p) = [3%nat; 2%nat] /\
     num_particles p = 2%nat /\ num_fluid_particles p = 5%Z /\
     timestep p Fixtures.g_down (1 / 2) = Raise ValueError) /\
  (exists p,
     init (array1 [1]) Fixtures.xs2 Fixtures.vs2 1 1 1%Z = Ok p /\
     shape (masses p) = [1%nat] /\ num_particles p = 2%nat).
Proof.
  split; [reflexivity|]. split; [reflexivity|]. split.
  - eexists. split; [reflexivity|]. repeat split.
  - eexists. split; [reflexivity|]. repeat split.
Qed.



(* ===================================================================== *)
(** * Further facts: kernels, density, pressure *)
(* ===================================================================== *)

Lemma exp_neg_le_1 (t : R) : 0 <= t -> exp (- t) <= 1.
Proof.
  intros [Ht| <-].
  - left. rewrite <- exp_0. apply exp_increasing. lra.
  - rewrite Ropp_0, exp_0. lra.
Qed.

Lemma kernelValue_le_origin (dx dy h : R) :
  0 < h -> kernelValue dx dy h <= 1 / (h * sqrt (2 * PI)).
Proof.
  intros Hh. unfold kernelValue.
  assert (HA : 0 < 1 / (h * sqrt (2 * PI))).
  { apply Rdiv_lt_0_compat; [lra|].
    apply Rmult_lt_0_compat; [assumption|apply sqrt_2PI_pos]. }
  assert (Ht : 0 <= (dx ^ 2 + dy ^ 2) / (2 * h ^ 2)).
  { apply Rmult_le_pos; [nra|]. left. apply Rinv_0_lt_compat. nra. }
  pose proof (exp_neg_le_1 _ Ht). nra.
Qed.

Lemma kernelValue_even (dx dy h : R) :
  kernelValue (- dx) (- dy) h = kernelValue dx dy h.
Proof. unfold kernelValue. do 3 f_equal. lra. Qed.

Lemma kernelGradient_odd (dx dy h dc : R) :
  kernelGradient (- dx) (- dy) h (- dc) = - kernelGradient dx dy h dc.
Proof.
  unfold kernelGradient.
  replace ((- dx) ^ 2 + (- dy) ^ 2) with (dx ^ 2 + dy ^ 2) by lra. lra.
Qed.

(** The kernel matrix and the gradient tensor of a particle set, entry by
    entry. *)
Lemma kernel_tensors (p : ParticleList) (N : nat) :
  shape (positions p) = [N; 2%nat] ->
  exists D W GW,
    positions_diff p = Ok D /\
    gaussian D (h p) = Ok W /\ shape W = [N; N] /\
    gaussian_grad D (h p) = Ok GW /\ shape GW = [N; N; 2%nat] /\
    forall i j, (i < N)%nat -> (j < N)%nat ->
      item W [i; j] =
        kernelValue (item (positions p) [i; O] - item (positions p) [j; O])
          (item (positions p) [i; 1%nat] - item (positions p) [j; 1%nat]) (h p) /\
      forall c,
        item GW [i; j; c] =
          kernelGradient (item (positions p) [i; O] - item (positions p) [j; O])
            (item (positions p) [i; 1%nat] - item (positions p) [j; 1%nat]) (h p)
            (item (positions p) [i; c] - item (positions p) [j; c]).
Proof.
  intros Hx.
  destruct (positions_diff_pairs p N Hx) as (D & HD & HsD & HiD).
  destruct (gaussian_pairs (h p) D N N HsD) as (W & HW & HsW & HiW).
  destruct (gaussian_grad_pairs (h p) D N N HsD) as (GW & HGW & HsGW & HiGW).
  exists D, W, GW. repeat (split; [assumption|]).
  intros i j Hi Hj. split.
  - rewrite HiW, !HiD by assumption. apply gaussian_of_norm_closed.
  - intros c. rewrite HiGW, !HiD by assumption.
    apply gaussian_grad_of_norm_closed.
Qed.

Lemma sum_upto_le (n : nat) (f g : nat -> R) :
  (forall j, (j < n)%nat -> f j <= g j) -> sum_upto n f <= sum_upto n g.
Proof.
  induction n as [|n IH]; intros Hfg; simpl; [lra|].
  assert (sum_upto n f <= sum_upto n g) by (apply IH; intros; apply Hfg; lia).
  assert (f n <= g n) by (apply Hfg; lia). lra.
Qed.

Lemma sum_upto_nonneg (n : nat) (f : nat -> R) :
  (forall j, (j < n)%nat -> 0 <= f j) -> 0 <= sum_upto n f.
Proof.
  induction n as [|n IH]; intros Hf; simpl; [lra|].
  assert (0 <= sum_upto n f) by (apply IH; intros; apply Hf; lia).
  assert (0 <= f n) by (apply Hf; lia). lra.
Qed.

Lemma sum_upto_term_le (n i : nat) (f : nat -> R) :
  (forall j, (j < n)%nat -> 0 <= f j) -> (i < n)%nat -> f i <= sum_upto n f.
Proof.
  induction n as [|n IH]; intros Hf Hi; [lia|]. simpl.
  assert (H0 : 0 <= sum_upto n f) by (apply sum_upto_nonneg; intros; apply Hf; lia).
  assert (Hn : 0 <= f n) by (apply Hf; lia).
  destruct (Nat.eq_dec i n) as [->|Hne]; [lra|].
  assert (f i <= sum_upto n f) by (apply IH; [intros; apply Hf; lia|lia]). lra.
Qed.

Lemma sum_upto_scale (n : nat) (f : nat -> R) (a : R) :
  sum_upto n (fun j => f j * a) = sum_upto n f * a.
Proof. induction n as [|n IH]; simpl; [lra|]. rewrite IH. lra. Qed.

(* ===================================================================== *)
(** * Further facts: integration and the step *)
(* ===================================================================== *)

Lemma slice_bound_cases_nonneg (F : Z) (N : nat) :
  (0 <= F <= Z.of_nat N)%Z -> slice_bound F N = Z.to_nat F.
Proof. intros HF. unfold slice_bound. destruct (F <? 0)%Z eqn:E; lia. Qed.

Lemma slice_bound_cases_neg (F : Z) (N : nat) :
  (F < 0)%Z -> slice_bound F N = (N - Z.to_nat (- F))%nat.
Proof. intros HF. unfold slice_bound. destruct (F <? 0)%Z eqn:E; lia. Qed.

Lemma slice_bound_cases_large (F : Z) (N : nat) :
  (Z.of_nat N <= F)%Z -> slice_bound F N = N.
Proof. intros HF. unfold slice_bound. destruct (F <? 0)%Z eqn:E; lia. Qed.

(** One step on a consistent state, entry by entry. *)
Lemma timestep_items (p : ParticleList) (g : ndarray) (dt : R) (N : nat) :
  consistent N p ->
  shape g = [2%nat] ->
  exists dens G p',
    reconstruct_density p = Ok dens /\ shape dens = [N] /\
    eval_pressure_grad p dens = Ok G /\ shape G = [N; 2%nat] /\
    timestep p g dt = Ok p' /\ consistent N p' /\
    forall i c, (i < N)%nat ->
      item (velocities p') [i; c] =
        (if (i <? fluid_bound p N)%nat
         then item (velocities p) [i; c] + dt * item g [c]
         else item (velocities p) [i; c])
        + dt * ((-1) / item dens [i] * item G [i; c]) / item (masses p) [i] /\
      item (positions p') [i; c] =
        (if (i <? fluid_bound p N)%nat
         then item (positions p) [i; c] + dt * item (velocities p') [i; c]
         else item (positions p) [i; c]).
Proof.
  intros Hc Hg. pose proof Hc as (Hm & Hx & Hv & Hn & rd & Hrd & Hsrd).
  destruct (reconstruct_density_items p N Hm Hx) as (dens & Hd & Hsd & _).
  destruct (eval_pressure_grad_items p dens rd N Hm Hx Hrd Hsrd Hsd)
    as (G & HG & HsG & _).
  destruct (apply_gravity_force_items p g dt N Hv Hg) as (V1 & HV1 & HsV1 & HiV1).
  destruct (apply_pressure_force_items p V1 dens G dt N Hm HsV1 Hsd HsG)
    as (V & HV & HsV & HiV).
  destruct (update_positions_items p V dt N Hx HsV) as (X & HX & HsX & HiX).
  exists dens, G, (set_velocities V (set_positions X p)).
  repeat (split; [assumption|]). split.
  - unfold timestep. rewrite Hd. simpl. rewrite HG. simpl. rewrite HV1. simpl.
    rewrite HV. simpl. now rewrite HX.
  - split; [now apply consistent_set|].
    intros i c Hi. simpl. split.
    + now rewrite HiV, HiV1 by assumption.
    + apply HiX.
Qed.

Lemma bdim_mismatch (a b : nat) :
  a <> b -> a <> 1%nat -> b <> 1%nat -> bdim a b = None.
Proof. intros Hab Ha Hb. apply bdim_none. intros [H|[H|H]]; contradiction. Qed.

Lemma apply_gravity_force_bad_shape (p : ParticleList) (g : ndarray) (dt : R)
    (N m : nat) :
  shape (velocities p) = [N; 2%nat] ->
  shape g = [m] ->
  m <> 1%nat -> m <> 2%nat ->
  apply_gravity_force p g dt = Raise ValueError.
Proof.
  intros Hv Hg H1 H2. unfold apply_gravity_force, iadd_slice0, copy. simpl.
  rewrite Hv, Hg. unfold broadcast_shapes. simpl.
  rewrite (bdim_mismatch 2 m) by (auto; lia). reflexivity.
Qed.

Lemma apply_pressure_force_bad_rows (p : ParticleList)
    (vel densities grads : ndarray) (dt : R) (N M : nat) :
  shape (masses p) = [N] ->
  shape vel = [M; 2%nat] ->
  shape densities = [N] ->
  shape grads = [N; 2%nat] ->
  M <> N -> M <> 1%nat -> N <> 1%nat ->
  apply_pressure_force p vel densities grads dt = Raise ValueError.
Proof.
  intros Hm Hv Hd Hg HMN HM HN. unfold apply_pressure_force.
  destruct p as [ms xs vs hh kk n F rd]. simpl in *.
  np_open ms. np_open vel. np_open densities. np_open grads.
  unfold newaxis, ndim. simpl.
  unfold broadcast2, broadcast_shapes, bindex. np_simpl.
  rewrite (bdim_mismatch M N) by assumption. reflexivity.
Qed.

(** A step in which no particle has a positive pressure quotient applies
    gravity only. *)
Lemma timestep_without_pressure (p : ParticleList) (g : ndarray) (dt : R)
    (N : nat) (rd : ndarray) :
  consistent N p ->
  shape g = [2%nat] ->
  rest_densities p = Some rd ->
  (forall dens, reconstruct_density p = Ok dens ->
     forall i, (i < N)%nat -> Rmax (item dens [i] / item rd [i] - 1) 0 = 0) ->
  exists p',
    timestep p g dt = Ok p' /\ consistent N p' /\
    forall i c, (i < N)%nat ->
      item (velocities p') [i; c] =
        (if (i <? fluid_bound p N)%nat
         then item (velocities p) [i; c] + dt * item g [c]
         else item (velocities p) [i; c]) /\
      item (positions p') [i; c] =
        (if (i <? fluid_bound p N)%nat
         then item (positions p) [i; c] + dt * item (velocities p') [i; c]
         else item (positions p) [i; c]).
Proof.
  intros Hc Hg Hrd Hmax. pose proof Hc as (Hm & Hx & Hv & Hn & rd' & Hrd' & Hsrd).
  assert (rd' = rd) by congruence. subst rd'.
  destruct (timestep_items p g dt N Hc Hg)
    as (dens & G & p' & Hd & Hsd & HG & _ & Hstep & Hc' & Hitems).
  destruct (eval_pressure_grad_items p dens rd N Hm Hx Hrd Hsrd Hsd)
    as (G' & HG' & _ & HiG).
  assert (G' = G) by congruence. subst G'.
  assert (HG0 : forall i c, (i < N)%nat -> item G [i; c] = 0).
  { intros i c Hi. rewrite HiG by assumption.
    apply sum_upto_zero. intros j Hj. cbv zeta.
    rewrite (Hmax dens Hd j Hj). unfold Rdiv. lra. }
  exists p'. repeat (split; [assumption|]).
  intros i c Hi. destruct (Hitems i c Hi) as (Hvel & Hpos).
  split; [|exact Hpos].
  rewrite Hvel, HG0 by assumption. unfold Rdiv. lra.
Qed.

(** A particle set of one fluid particle whose rest density is its own
    kernel contribution: every step is a free-fall step. *)
Lemma lone_run (K : nat) (g : ndarray) (dt : R) :
  shape g = [2%nat] ->
  forall (p : ParticleList) (rd : ndarray),
    consistent 1 p ->
    rest_densities p = Some rd ->
    item rd [O] = item (masses p) [O] * kernelValue 0 0 (h p) ->
    fluid_bound p 1 = 1%nat ->
    exists pK,
      run K p g dt = Ok pK /\
      forall c,
        item (velocities pK) [O; c]
          = item (velocities p) [O; c] + INR K * dt * item g [c] /\
        item (positions pK) [O; c]
          = item (positions p) [O; c] + INR K * dt * item (velocities p) [O; c]
            + dt * dt * item g [c] * (INR K * (INR K + 1) / 2).
Proof.
  intros Hg. induction K as [|K IH]; intros p rd Hc Hrd Hself Hfluid.
  - exists p. split; [reflexivity|]. intros c. simpl. split; lra.
  - pose proof Hc as (Hm & Hx & _).
    destruct (timestep_without_pressure p g dt 1 rd Hc Hg Hrd)
      as (p1 & Hstep & Hc1 & Hitems).
    { intros dens Hd i Hi.
      destruct (reconstruct_density_items p 1 Hm Hx) as (dens' & Hd' & _ & Hid).
      assert (dens' = dens) by congruence. subst dens'.
      assert (i = O) by lia. subst i.
      rewrite Hid by lia. simpl. rewrite !Rminus_diag, Rplus_0_l, <- Hself.
      apply Rmax_ratio_self. }
    destruct (timestep_frame p p1 g dt Hstep) as (Hm1 & Hh1 & _ & _ & HF1 & Hrd1 & _).
    destruct (IH p1 rd Hc1) as (pK & HpK & HitemsK).
    + now rewrite Hrd1.
    + now rewrite Hm1, Hh1.
    + unfold fluid_bound in *. now rewrite HF1.
    + exists pK. split; [simpl; now rewrite Hstep|].
      intros c. destruct (HitemsK c) as (HvK & HxK).
      destruct (Hitems O c (Nat.lt_0_1)) as (Hv1 & Hx1).
      rewrite Hfluid in Hv1, Hx1. simpl in Hv1, Hx1.
      rewrite HvK, HxK, Hx1, Hv1, S_INR. split; field.
Qed.

(* ===================================================================== *)
(** * Further facts: the frame loop and the plot data *)
(* ===================================================================== *)

(** The frame loop against [run]: it returns what [run] returns, having
    appended one snapshot per step. *)
Lemma precompute_run (n : nat) (g : ndarray) (dt : R) :
  forall (p : ParticleList) (fd0 : list ndarray),
    match run n p g dt with
    | Ok pK =>
        exists fs,
          precompute n p g dt fd0 = Ok (pK, fd0 ++ fs) /\
          length fs = n /\
          forall j, (j < n)%nat ->
            exists pj, run (S j) p g dt = Ok pj /\
                       nth_error fs j = Some (copy (positions pj))
    | Raise e => precompute n p g dt fd0 = Raise e
    end.
Proof.
  induction n as [|n IH]; intros p fd0.
  - simpl. exists []. rewrite app_nil_r. repeat split. intros j Hj. lia.
  - simpl. destruct (timestep p g dt) as [p1|e] eqn:H1; simpl; [|reflexivity].
    specialize (IH p1 (fd0 ++ [copy (positions p1)])).
    destruct (run n p1 g dt) as [pK|e] eqn:HK; [|exact IH].
    destruct IH as (fs & Hpre & Hlen & Hframes).
    exists (copy (positions p1) :: fs). split; [|split].
    + rewrite Hpre. now rewrite <- app_assoc.
    + simpl. now rewrite Hlen.
    + intros [|j] Hj.
      * exists p1. split; reflexivity.
      * destruct (Hframes j) as (pj & Hpj & Hnth); [lia|].
        exists pj. split; [exact Hpj|exact Hnth].
Qed.

Lemma list_index_in_range {A : Type} (l : list A) (i : Z) :
  (- Z.of_nat (length l) <= i < Z.of_nat (length l))%Z ->
  exists a,
    list_index l i = Ok a /\
    nth_error l (Z.to_nat (if (i <? 0)%Z then Z.of_nat (length l) + i else i))
    = Some a.
Proof.
  intros Hi. unfold list_index.
  set (j := if (i <? 0)%Z then (Z.of_nat (length l) + i)%Z else i).
  assert (Hj : (0 <= j < Z.of_nat (length l))%Z).
  { unfold j. destruct (i <? 0)%Z eqn:E; lia. }
  destruct (j <? 0)%Z eqn:E; [lia|].
  destruct (nth_error l (Z.to_nat j)) as [a|] eqn:Hn.
  - exists a. split; reflexivity.
  - apply nth_error_None in Hn. lia.
Qed.

Lemma list_index_out_of_range {A : Type} (l : list A) (i : Z) :
  (i < - Z.of_nat (length l) \/ Z.of_nat (length l) <= i)%Z ->
  list_index l i = Raise IndexError.
Proof.
  intros Hi. unfold list_index.
  destruct (i <? 0)%Z eqn:E.
  - destruct (Z.of_nat (length l) + i <? 0)%Z eqn:E2; [reflexivity|]. lia.
  - destruct (i <? 0)%Z eqn:E2; [lia|].
    destruct (nth_error l (Z.to_nat i)) as [a|] eqn:Hn; [|reflexivity].
    assert (Z.to_nat i < length l)%nat by (apply nth_error_Some; congruence). lia.
Qed.

(* ===================================================================== *)
(** * Further facts: the initial arrangement *)
(* ===================================================================== *)

Lemma slice_bound_drop_last (n : nat) : slice_bound (-1) (n + 1) = n.
Proof. unfold slice_bound. simpl. lia. Qed.

(** An interior sample of [np.linspace]. *)
Lemma linspace_item (a b : R) (n q : nat) :
  (q < n)%nat ->
  item (linspace a b (n + 1)) [q] = a + INR q * ((b - a) / INR n).
Proof.
  intros Hq. unfold linspace. cbn [item].
  replace (n + 1 - 1)%nat with n by lia.
  destruct (Nat.ltb_spec 0 n); [|lia].
  destruct (Nat.eqb_spec q n); [lia|]. lra.
Qed.

Lemma linspace_item_between (a b : R) (n q : nat) :
  a <= b -> (q < n)%nat ->
  a <= item (linspace a b n) [q] <= b.
Proof.
  intros Hab Hq. unfold linspace. cbn [item].
  destruct (Nat.ltb_spec 0 (n - 1)) as [Hdiv|Hdiv].
  - destruct (Nat.eqb_spec q (n - 1)); [lra|].
    assert (Hq' : (q <= n - 1)%nat) by lia.
    apply le_INR in Hq'. pose proof (pos_INR q) as Hq0.
    assert (Hn : 0 < INR (n - 1)) by (apply lt_0_INR; lia).
    assert (Hfrac : 0 <= INR q / INR (n - 1) <= 1).
    { split.
      - apply Rmult_le_pos; [assumption|]. left. now apply Rinv_0_lt_compat.
      - apply (Rmult_le_reg_r (INR (n - 1))); [assumption|].
        unfold Rdiv. rewrite Rmult_assoc, Rinv_l by lra. lra. }
    replace (INR q * ((b - a) / INR (n - 1)) + a)
      with (a + (INR q / INR (n - 1)) * (b - a)) by (field; lra).
    nra.
  - assert (q = O) by lia. subst q. simpl. lra.
Qed.

Lemma linspace_item_between_rev (a b : R) (n q : nat) :
  b <= a -> (q < n)%nat ->
  b <= item (linspace a b n) [q] <= a.
Proof.
  intros Hab Hq. unfold linspace. cbn [item].
  destruct (Nat.ltb_spec 0 (n - 1)) as [Hdiv|Hdiv].
  - destruct (Nat.eqb_spec q (n - 1)); [lra|].
    assert (Hq' : (q <= n - 1)%nat) by lia.
    apply le_INR in Hq'. pose proof (pos_INR q) as Hq0.
    assert (Hn : 0 < INR (n - 1)) by (apply lt_0_INR; lia).
    assert (Hfrac : 0 <= INR q / INR (n - 1) <= 1).
    { split.
      - apply Rmult_le_pos; [assumption|]. left. now apply Rinv_0_lt_compat.
      - apply (Rmult_le_reg_r (INR (n - 1))); [assumption|].
        unfold Rdiv. rewrite Rmult_assoc, Rinv_l by lra. lra. }
    replace (INR q * ((b - a) / INR (n - 1)) + a)
      with (a + (INR q / INR (n - 1)) * (b - a)) by (field; lra).
    nra.
  - assert (q = O) by lia. subst q. simpl. lra.
Qed.

Lemma unravel_vector (n i : nat) : unravel [n] i = [i].
Proof. unfold unravel, size. now rewrite Nat.div_1_r. Qed.

Lemma unravel_matrix (a b i : nat) : unravel [a; b] i = [(i / b)%nat; (i mod b)%nat].
Proof. unfold unravel, size. now rewrite Nat.mul_1_r, Nat.div_1_r. Qed.

(** The fluid block: [grid_dim * grid_dim] rows; row [i] takes its x from
    column [i mod grid_dim] and its y from row [i / grid_dim] of the grid. *)
Lemma fluid_positions_items (grid_dim : nat) :
  exists A,
    fluid_positions grid_dim = Ok A /\
    shape A = [(grid_dim * grid_dim)%nat; 2%nat] /\
    forall i, (i < grid_dim * grid_dim)%nat ->
      item A [i; O]
        = item (linspace (- (2 / 10)) (2 / 10) grid_dim) [(i mod grid_dim)%nat] /\
      item A [i; 1%nat]
        = item (linspace (2 / 10) (4 / 10) grid_dim) [(i / grid_dim)%nat].
Proof.
  unfold fluid_positions.
  set (x := linspace (- (2 / 10)) (2 / 10) grid_dim).
  set (y := linspace (2 / 10) (4 / 10) grid_dim).
  assert (Hx : shape x = [grid_dim]) by reflexivity.
  assert (Hy : shape y = [grid_dim]) by reflexivity.
  clearbody x y.
  destruct x as [sx fx], y as [sy fy]. cbn [shape] in Hx, Hy. subst sx sy.
  unfold meshgrid, flatten, stack1.
  cbn [shape size forallb length].
  rewrite shape_eqb_refl. cbn [andb].
  eexists. split; [reflexivity|]. split.
  - cbn [shape]. f_equal. lia.
  - intros i Hi. cbn [item nth shape].
    rewrite !unravel_matrix, !unravel_vector, !Nat.mul_1_r. split; reflexivity.
Qed.

Lemma concat_item_here (a : ndarray) (rest : list ndarray) (i : nat) (r : list nat)
    (n : nat) :
  shape a = [n] -> (i < n)%nat ->
  concat_item (a :: rest) i r = item a (i :: r).
Proof.
  intros Ha Hi. cbn [concat_item]. rewrite Ha. cbn [hd].
  now destruct (Nat.ltb_spec i n); [|lia].
Qed.

Lemma concat_item_skip (a : ndarray) (rest : list ndarray) (i : nat) (r : list nat)
    (n : nat) :
  shape a = [n] ->
  concat_item (a :: rest) (n + i) r = concat_item rest i r.
Proof.
  intros Ha. cbn [concat_item]. rewrite Ha. cbn [hd].
  destruct (Nat.ltb_spec (n + i) n); [lia|].
  now replace (n + i - n)%nat with i by lia.
Qed.

(** The boundary ring: four walls of [w] particles, in the order bottom,
    right, top, left. *)
Lemma boundary_positions_items (w : nat) :
  exists B,
    boundary_positions w = Ok B /\
    shape B = [(4 * w)%nat; 2%nat] /\
    forall q, (q < w)%nat ->
      (item B [q; O] = item (linspace (- (5 / 10)) (5 / 10) (w + 1)) [q] /\
       item B [q; 1%nat] = 0) /\
      (item B [(w + q)%nat; O] = 5 / 10 * 1 /\
       item B [(w + q)%nat; 1%nat] = item (linspace 0 1 (w + 1)) [q]) /\
      (item B [(w + (w + q))%nat; O]
         = item (linspace (5 / 10) (- (5 / 10)) (w + 1)) [q] /\
       item B [(w + (w + q))%nat; 1%nat] = 1) /\
      (item B [(w + (w + (w + q)))%nat; O] = - (5 / 10) * 1 /\
       item B [(w + (w + (w + q)))%nat; 1%nat] = item (linspace 1 0 (w + 1)) [q]).
Proof.
  unfold boundary_positions.
  set (l0 := linspace (- (5 / 10)) (5 / 10) (w + 1)).
  set (l1 := linspace 0 1 (w + 1)).
  set (l2 := linspace (5 / 10) (- (5 / 10)) (w + 1)).
  set (l3 := linspace 1 0 (w + 1)).
  assert (H0 : shape l0 = [(w + 1)%nat]) by reflexivity.
  assert (H1 : shape l1 = [(w + 1)%nat]) by reflexivity.
  assert (H2 : shape l2 = [(w + 1)%nat]) by reflexivity.
  assert (H3 : shape l3 = [(w + 1)%nat]) by reflexivity.
  clearbody l0 l1 l2 l3.
  destruct l0 as [s0 f0], l1 as [s1 f1], l2 as [s2 f2], l3 as [s3 f3].
  cbn [shape] in H0, H1, H2, H3. subst s0 s1 s2 s3.
  unfold slice0. cbn [shape Py.bind]. rewrite slice_bound_drop_last.
  unfold concatenate0, zeros_like, ones_like, amap.
  cbn [shape forallb shape_eqb andb Py.bind concat_rows hd].
  unfold stack1. cbn [shape forallb length]. rewrite shape_eqb_refl. cbn [andb].
  eexists. split; [reflexivity|]. split; [cbn [shape]; f_equal; lia|].
  intros q Hq. cbn [item nth].
  repeat split;
    repeat first
      [ rewrite (concat_item_skip _ _ _ _ w) by reflexivity
      | rewrite (concat_item_here _ _ _ _ w) by (reflexivity || assumption) ];
    reflexivity.
Qed.

(** The particle set of the script: fluid block first, boundary ring
    after it, at rest, every mass [0.1], rest densities the densities of
    the arrangement itself. *)
Lemma initial_particles_items (grid_dim w : nat) :
  exists A B p0 rd,
    fluid_positions grid_dim = Ok A /\
    boundary_positions w = Ok B /\
    initial_particles grid_dim w = Ok p0 /\
    consistent (grid_dim * grid_dim + 4 * w) p0 /\
    rest_densities p0 = Some rd /\
    reconstruct_density p0 = Ok rd /\
    num_fluid_particles p0 = Z.of_nat (grid_dim * grid_dim) /\
    h p0 = h_const /\ k p0 = k_const /\
    (forall i c, item (velocities p0) [i; c] = 0) /\
    (forall i, item (masses p0) [i] = 1 / 10 * 1) /\
    (forall i c, (i < grid_dim * grid_dim)%nat ->
       item (positions p0) [i; c] = item A [i; c]) /\
    (forall i c, (i < 4 * w)%nat ->
       item (positions p0) [(grid_dim * grid_dim + i)%nat; c] = item B [i; c]).
Proof.
  destruct (fluid_positions_items grid_dim) as (A & HA & HsA & _).
  destruct (boundary_positions_items w) as (B & HB & HsB & _).
  exists A, B. unfold initial_particles. rewrite HA, HB. cbn [Py.bind].
  destruct A as [sA fA], B as [sB fB]. cbn [shape] in HsA, HsB. subst sA sB.
  unfold concatenate0. cbn [shape forallb shape_eqb Nat.eqb andb concat_rows hd Py.bind].
  rewrite Nat.add_0_r.
  set (N := (grid_dim * grid_dim + 4 * w)%nat).
  set (X := mk_array [N; 2%nat] _).
  destruct (init_consistent (amap (Rmult (1 / 10)) (ones N)) (copy X)
              (copy (zeros_like X)) h_const k_const
              (Z.of_nat (grid_dim * grid_dim)) N eq_refl eq_refl eq_refl)
    as (rd & Hrd & Hsrd & Hinit).
  eexists. exists rd. split; [reflexivity|]. split; [reflexivity|].
  split; [exact Hinit|]. split.
  { unfold consistent. cbn. repeat (split; [reflexivity|]). now exists rd. }
  split; [reflexivity|]. split; [exact Hrd|].
  repeat (split; [reflexivity|]). split.
  - intros i c Hi. subst X. cbn [item positions copy concat_item shape hd].
    now destruct (Nat.ltb_spec i (grid_dim * grid_dim)); [|lia].
  - intros i c Hi. subst X. cbn [item positions copy concat_item shape hd].
    destruct (Nat.ltb_spec (grid_dim * grid_dim + i) (grid_dim * grid_dim)); [lia|].
    replace (grid_dim * grid_dim + i - grid_dim * grid_dim)%nat with i by lia.
    now destruct (Nat.ltb_spec i (4 * w)); [|lia].
Qed.

Lemma update_items (frame_data : list ndarray) (F frame : Z) (fd : ndarray) (N : nat) :
  list_index frame_data frame = Ok fd ->
  shape fd = [N; 2%nat] ->
  exists fl bd,
    update frame_data F frame = Ok (fl, bd) /\
    shape fl = [slice_bound F N; 2%nat] /\
    shape bd = [(N - slice_bound F N)%nat; 2%nat] /\
    (forall i c, item fl [i; c] = item fd [i; c]) /\
    (forall i c, item bd [i; c] = item fd [(slice_bound F N + i)%nat; c]).
Proof.
  intros Hfd Hs. unfold update. rewrite Hfd. cbn [Py.bind].
  destruct fd as [s f]. cbn [shape] in Hs. subst s.
  unfold slice0, slice_from. cbn [shape Py.bind].
  eexists. eexists. split; [reflexivity|]. repeat split.
Qed.

(** Every frame of the loop on a consistent state is a full position array
    whose boundary rows are the initial ones. *)
Lemma precompute_consistent (n : nat) (p : ParticleList) (g : ndarray) (dt : R)
    (N : nat) :
  consistent N p ->
  shape g = [2%nat] ->
  exists pK fs,
    precompute n p g dt [] = Ok (pK, fs) /\
    run n p g dt = Ok pK /\
    length fs = n /\
    forall j fr, nth_error fs j = Some fr ->
      shape fr = [N; 2%nat] /\
      (exists pj, run (S j) p g dt = Ok pj /\
                  forall idx, item fr idx = item (positions pj) idx) /\
      forall i c, (fluid_bound p N <= i)%nat ->
        item fr [i; c] = item (positions p) [i; c].
Proof.
  intros Hc Hg.
  destruct (run_consistent n g dt N Hg p Hc) as (pK & HpK & _).
  pose proof (precompute_run n g dt p []) as Hpre. rewrite HpK in Hpre.
  destruct Hpre as (fs & Hpre & Hlen & Hframes).
  exists pK, fs. repeat (split; [assumption|]).
  intros j fr Hnth.
  assert (Hj : (j < n)%nat).
  { rewrite <- Hlen. apply nth_error_Some. congruence. }
  destruct (Hframes j Hj) as (pj & Hpj & Hnth').
  assert (fr = copy (positions pj)) by congruence. subst fr.
  destruct (run_consistent (S j) g dt N Hg p Hc) as (pj' & Hpj' & Hcj).
  assert (pj' = pj) by congruence. subst pj'.
  destruct (run_frame (S j) g dt p pj Hpj) as (_ & _ & _ & _ & _ & _ & Hs & Hfrozen).
  pose proof Hc as (_ & Hx & _).
  unfold copy. cbn [shape item]. split; [|split].
  - now rewrite Hs.
  - exists pj. split; [assumption|reflexivity].
  - intros i c Hi. apply (Hfrozen i [c]). now rewrite Hx.
Qed.

Lemma density_lower_bound (p : ParticleList) (N : nat) :
  0 < h p ->
  shape (masses p) = [N] ->
  shape (positions p) = [N; 2%nat] ->
  (forall j, (j < N)%nat -> 0 <= item (masses p) [j]) ->
  exists dens,
    reconstruct_density p = Ok dens /\
    forall i, (i < N)%nat ->
      item (masses p) [i] * (1 / (h p * sqrt (2 * PI))) <= item dens [i].
Proof.
  intros Hh Hm Hx Hpos.
  destruct (reconstruct_density_items p N Hm Hx) as (dens & Hd & _ & Hid).
  exists dens. split; [assumption|].
  intros i Hi. rewrite Hid by assumption.
  set (f := fun j : nat =>
              item (masses p) [j]
              * kernelValue (item (positions p) [i; O] - item (positions p) [j; O])
                  (item (positions p) [i; 1%nat] - item (positions p) [j; 1%nat])
                  (h p)).
  assert (Hself : f i = item (masses p) [i] * (1 / (h p * sqrt (2 * PI)))).
  { unfold f. now rewrite !Rminus_diag, kernelValue_origin. }
  rewrite <- Hself. apply sum_upto_term_le; [|assumption].
  intros j Hj. unfold f. apply Rmult_le_pos; [now apply Hpos|].
  left. now apply kernelValue_pos.
Qed.

Lemma fluid_bound_script (p : ParticleList) (a b : nat) :
  num_fluid_particles p = Z.of_nat a ->
  fluid_bound p (a + b) = a.
Proof.
  intros HF. unfold fluid_bound. rewrite HF.
  rewrite slice_bound_cases_nonneg by lia. apply Nat2Z.id.
Qed.

Lemma h_const_pos : 0 < h_const.
Proof. unfold h_const. lra. Qed.

(* ===================================================================== *)
(** * Further properties of the code *)
(* ===================================================================== *)

(** X1.  For [h > 0] every entry of [gaussian d h] lies in
    [[0, 1/(h sqrt(2 pi))]]: the kernel is never negative and nowhere
    larger than at zero displacement. *)
Theorem gaussian_bounded (d : ndarray) (hh : R) (n m : nat) :
  0 < hh ->
  shape d = [n; m; 2%nat] ->
  exists w, gaussian d hh = Ok w /\ shape w = [n; m] /\
    forall i j, 0 <= item w [i; j] <= 1 / (hh * sqrt (2 * PI)).
Proof.
  intros Hh Hs.
  destruct (gaussian_pairs hh d n m Hs) as (w & Hw & Hsw & Hiw).
  exists w. repeat (split; [assumption|]).
  intros i j. rewrite Hiw, gaussian_of_norm_closed. split.
  - left. now apply kernelValue_pos.
  - now apply kernelValue_le_origin.
Qed.

Lemma gaussian_bounded_witness :
  0 < 1 /\ shape Fixtures.d_pair = [1%nat; 2%nat; 2%nat] /\
  exists w, gaussian Fixtures.d_pair 1 = Ok w /\ shape w = [1%nat; 2%nat] /\
    forall i j, 0 <= item w [i; j] <= 1 / (1 * sqrt (2 * PI)).
Proof.
  split; [lra|]. split; [reflexivity|].
  apply (gaussian_bounded Fixtures.d_pair 1 1 2); [lra|reflexivity].
Defined.

(** X2.  For [h <> 0] and the pairwise displacements of a particle set,
    the kernel matrix is symmetric, and the gradient tensor is
    antisymmetric with a zero diagonal: particle [j] pushes [i] exactly
    opposite to how [i] pushes [j], and no particle pushes itself. *)
Theorem pairwise_kernels_symmetry (p : ParticleList) (N : nat) :
  h p <> 0 ->
  shape (positions p) = [N; 2%nat] ->
  exists D W GW,
    positions_diff p = Ok D /\
    gaussian D (h p) = Ok W /\
    gaussian_grad D (h p) = Ok GW /\
    forall i j, (i < N)%nat -> (j < N)%nat ->
      item W [i; j] = item W [j; i] /\
      (forall c, item GW [i; j; c] = - item GW [j; i; c]) /\
      (forall c, item GW [i; i; c] = 0).
Proof.
  intros _ Hx.
  destruct (kernel_tensors p N Hx) as (D & W & GW & HD & HW & _ & HGW & _ & Hitems).
  exists D, W, GW. repeat (split; [assumption|]).
  intros i j Hi Hj.
  destruct (Hitems i j Hi Hj) as (Hwij & Hgij).
  destruct (Hitems j i Hj Hi) as (Hwji & Hgji).
  destruct (Hitems i i Hi Hi) as (_ & Hgii).
  split; [|split].
  - rewrite Hwij, Hwji. rewrite <- kernelValue_even. f_equal; lra.
  - intros c. rewrite Hgij, Hgji. rewrite <- kernelGradient_odd. f_equal; lra.
  - intros c. rewrite Hgii, !Rminus_diag. apply kernelGradient_origin.
Qed.

Lemma pairwise_kernels_symmetry_witness :
  h Fixtures.p_uneven <> 0 /\
  shape (positions Fixtures.p_uneven) = [2%nat; 2%nat] /\
  exists D W GW,
    positions_diff Fixtures.p_uneven = Ok D /\
    gaussian D (h Fixtures.p_uneven) = Ok W /\
    gaussian_grad D (h Fixtures.p_uneven) = Ok GW /\
    forall i j, (i < 2)%nat -> (j < 2)%nat ->
      item W [i; j] = item W [j; i] /\
      (forall c, item GW [i; j; c] = - item GW [j; i; c]) /\
      (forall c, item GW [i; i; c] = 0).
Proof.
  assert (Hh : h Fixtures.p_uneven <> 0) by (simpl; lra).
  split; [exact Hh|]. split; [reflexivity|].
  apply (pairwise_kernels_symmetry Fixtures.p_uneven 2 Hh). reflexivity.
Defined.

(** X3.  With [h > 0] and masses that are not negative, every density
    lies between the particle's own contribution [mass_i / (h sqrt(2 pi))]
    and [(sum of all masses) / (h sqrt(2 pi))]; a particle of positive mass
    has a positive density, whatever the positions. *)
Theorem density_bounds (p : ParticleList) (N : nat) :
  0 < h p ->
  shape (masses p) = [N] ->
  shape (positions p) = [N; 2%nat] ->
  (forall j, (j < N)%nat -> 0 <= item (masses p) [j]) ->
  exists dens,
    reconstruct_density p = Ok dens /\
    forall i, (i < N)%nat ->
      item (masses p) [i] * (1 / (h p * sqrt (2 * PI))) <= item dens [i] /\
      item dens [i]
        <= sum_upto N (fun j => item (masses p) [j]) * (1 / (h p * sqrt (2 * PI))) /\
      (0 < item (masses p) [i] -> 0 < item dens [i]).
Proof.
  intros Hh Hm Hx Hpos.
  destruct (reconstruct_density_items p N Hm Hx) as (dens & Hd & _ & Hid).
  exists dens. split; [assumption|].
  intros i Hi. rewrite Hid by assumption.
  set (f := fun j : nat =>
              item (masses p) [j]
              * kernelValue (item (positions p) [i; O] - item (positions p) [j; O])
                  (item (positions p) [i; 1%nat] - item (positions p) [j; 1%nat])
                  (h p)).
  assert (Hf0 : forall j, (j < N)%nat -> 0 <= f j).
  { intros j Hj. unfold f. apply Rmult_le_pos; [now apply Hpos|].
    left. now apply kernelValue_pos. }
  assert (Hself : f i = item (masses p) [i] * (1 / (h p * sqrt (2 * PI)))).
  { unfold f. now rewrite !Rminus_diag, kernelValue_origin. }
  assert (Hlow : item (masses p) [i] * (1 / (h p * sqrt (2 * PI))) <= sum_upto N f).
  { rewrite <- Hself. now apply sum_upto_term_le. }
  assert (HW0 : 0 < 1 / (h p * sqrt (2 * PI))).
  { rewrite <- kernelValue_origin. now apply kernelValue_pos. }
  split; [exact Hlow|]. split.
  - rewrite <- sum_upto_scale. apply sum_upto_le. intros j Hj. unfold f.
    apply Rmult_le_compat_l; [now apply Hpos|]. now apply kernelValue_le_origin.
  - intros Hmi.
    assert (0 < item (masses p) [i] * (1 / (h p * sqrt (2 * PI))))
      by (apply Rmult_lt_0_compat; assumption).
    lra.
Qed.

Lemma density_bounds_witness :
  0 < h Fixtures.p_uneven /\
  shape (masses Fixtures.p_uneven) = [2%nat] /\
  shape (positions Fixtures.p_uneven) = [2%nat; 2%nat] /\
  (forall j, (j < 2)%nat -> 0 <= item (masses Fixtures.p_uneven) [j]) /\
  exists dens,
    reconstruct_density Fixtures.p_uneven = Ok dens /\
    forall i, (i < 2)%nat ->
      (0 < item (masses Fixtures.p_uneven) [i] -> 0 < item dens [i]).
Proof.
  assert (Hh : 0 < h Fixtures.p_uneven) by (simpl; lra).
  assert (Hm : forall j, (j < 2)%nat -> 0 <= item (masses Fixtures.p_uneven) [j]).
  { intros [|[|j]] Hj; simpl; [lra|lra|lia]. }
  split; [exact Hh|]. repeat (split; [reflexivity|]). split; [exact Hm|].
  destruct (density_bounds Fixtures.p_uneven 2 Hh eq_refl eq_refl Hm)
    as (dens & Hd & Hb).
  exists dens. split; [exact Hd|]. intros i Hi. now apply Hb.
Defined.

(** X4.  The density estimator sees only differences of positions: moving
    every particle by the same vector [(a0, a1)] leaves every density as it
    was. *)
Theorem density_translation_invariant (p q : ParticleList) (N : nat) (a0 a1 : R) :
  shape (masses p) = [N] ->
  shape (positions p) = [N; 2%nat] ->
  shape (positions q) = [N; 2%nat] ->
  masses q = masses p ->
  h q = h p ->
  (forall i, (i < N)%nat ->
     item (positions q) [i; O] = item (positions p) [i; O] + a0 /\
     item (positions q) [i; 1%nat] = item (positions p) [i; 1%nat] + a1) ->
  exists dp dq,
    reconstruct_density p = Ok dp /\ reconstruct_density q = Ok dq /\
    forall i, (i < N)%nat -> item dq [i] = item dp [i].
Proof.
  intros Hm Hxp Hxq Hmq Hhq Hshift.
  assert (Hm' : shape (masses q) = [N]) by now rewrite Hmq.
  destruct (reconstruct_density_items p N Hm Hxp) as (dp & Hdp & _ & Hip).
  destruct (reconstruct_density_items q N Hm' Hxq) as (dq & Hdq & _ & Hiq).
  exists dp, dq. repeat (split; [assumption|]).
  intros i Hi. rewrite Hip, Hiq by assumption.
  apply sum_upto_ext. intros j Hj. rewrite Hmq, Hhq.
  destruct (Hshift i Hi) as (-> & ->). destruct (Hshift j Hj) as (-> & ->).
  f_equal. f_equal; lra.
Qed.

Lemma density_translation_invariant_witness :
  shape (masses Fixtures.p_uneven) = [2%nat] /\
  shape (positions Fixtures.p_uneven) = [2%nat; 2%nat] /\
  shape (positions MoreFixtures.p_shifted) = [2%nat; 2%nat] /\
  masses MoreFixtures.p_shifted = masses Fixtures.p_uneven /\
  h MoreFixtures.p_shifted = h Fixtures.p_uneven /\
  (forall i, (i < 2)%nat ->
     item (positions MoreFixtures.p_shifted) [i; O]
       = item (positions Fixtures.p_uneven) [i; O] + 3 /\
     item (positions MoreFixtures.p_shifted) [i; 1%nat]
       = item (positions Fixtures.p_uneven) [i; 1%nat] + 4) /\
  exists dp dq,
    reconstruct_density Fixtures.p_uneven = Ok dp /\
    reconstruct_density MoreFixtures.p_shifted = Ok dq /\
    forall i, (i < 2)%nat -> item dq [i] = item dp [i].
Proof.
  assert (Hshift : forall i, (i < 2)%nat ->
     item (positions MoreFixtures.p_shifted) [i; O]
       = item (positions Fixtures.p_uneven) [i; O] + 3 /\
     item (positions MoreFixtures.p_shifted) [i; 1%nat]
       = item (positions Fixtures.p_uneven) [i; 1%nat] + 4).
  { intros [|[|i]] Hi; simpl; [split; lra|split; lra|lia]. }
  repeat (split; [reflexivity|]). split; [exact Hshift|].
  apply (density_translation_invariant Fixtures.p_uneven MoreFixtures.p_shifted 2 3 4
           eq_refl eq_refl eq_refl eq_refl eq_refl Hshift).
Defined.

(** X5.  With positive rest densities the equation of state switches at
    the rest density: a particle at or below it has pressure 0, a particle
    at or above it has pressure [k * (density / restDensity - 1)], which is
    positive above the rest density when [k > 0]. *)
Theorem pressure_threshold (p : ParticleList) (densities rd : ndarray) (N : nat) :
  rest_densities p = Some rd ->
  shape rd = [N] ->
  shape densities = [N] ->
  (forall i, (i < N)%nat -> 0 < item rd [i]) ->
  exists P,
    eval_pressure p densities = Ok P /\
    forall i, (i < N)%nat ->
      (item densities [i] <= item rd [i] -> item P [i] = 0) /\
      (item rd [i] <= item densities [i] ->
         item P [i] = k p * (item densities [i] / item rd [i] - 1)) /\
      (0 < k p -> item rd [i] < item densities [i] -> 0 < item P [i]).
Proof.
  intros Hrd Hsrd Hsd Hpos.
  destruct (eval_pressure_items p densities rd N Hrd Hsrd Hsd) as (P & HP & _ & HiP).
  exists P. split; [assumption|].
  intros i Hi. rewrite HiP by assumption. specialize (Hpos i Hi).
  assert (Hratio : forall x, x / item rd [i] - 1 = (x - item rd [i]) / item rd [i])
    by (intros x; field; lra).
  assert (Hinv : 0 < / item rd [i]) by now apply Rinv_0_lt_compat.
  rewrite Hratio. unfold Rdiv.
  split; [|split].
  - intros Hle. rewrite Rmax_right; [lra|]. nra.
  - intros Hge. rewrite Rmax_left; [reflexivity|]. nra.
  - intros Hk Hgt. rewrite Rmax_left; [|nra].
    apply Rmult_lt_0_compat; [assumption|]. nra.
Qed.

Lemma pressure_threshold_witness :
  rest_densities Fixtures.p_uneven = Some (array1 [1; 1]) /\
  shape (array1 [1; 1]) = [2%nat] /\
  shape Fixtures.dens_uneven = [2%nat] /\
  (forall i, (i < 2)%nat -> 0 < item (array1 [1; 1]) [i]) /\
  exists P,
    eval_pressure Fixtures.p_uneven Fixtures.dens_uneven = Ok P /\
    forall i, (i < 2)%nat ->
      (item Fixtures.dens_uneven [i] <= item (array1 [1; 1]) [i] -> item P [i] = 0).
Proof.
  assert (Hpos : forall i, (i < 2)%nat -> 0 < item (array1 [1; 1]) [i]).
  { intros [|[|i]] Hi; simpl; [lra|lra|lia]. }
  repeat (split; [reflexivity|]). split; [exact Hpos|].
  destruct (pressure_threshold Fixtures.p_uneven Fixtures.dens_uneven
              (array1 [1; 1]) 2 eq_refl eq_refl eq_refl Hpos) as (P & HP & Hi).
  exists P. split; [exact HP|]. intros i Hlt. now apply Hi.
Defined.

(** X6.  [apply_gravity_force] adds [dt * g] to the velocity rows below
    the bound of the slice [[:num_fluid_particles]] and copies the rows
    from the bound on.  The bound is the fluid count itself when it lies in
    [[0, N]], is [N] when the fluid count is larger, and counts from the end
    when it is negative. *)
Theorem gravity_on_fluid_rows (p : ParticleList) (g : ndarray) (dt : R) (N : nat) :
  shape (velocities p) = [N; 2%nat] ->
  shape g = [2%nat] ->
  exists V,
    apply_gravity_force p g dt = Ok V /\ shape V = [N; 2%nat] /\
    (forall i c, (i < fluid_bound p N)%nat ->
       item V [i; c] = item (velocities p) [i; c] + dt * item g [c]) /\
    (forall i c, (fluid_bound p N <= i)%nat ->
       item V [i; c] = item (velocities p) [i; c]) /\
    ((0 <= num_fluid_particles p <= Z.of_nat N)%Z ->
       fluid_bound p N = Z.to_nat (num_fluid_particles p)) /\
    ((Z.of_nat N <= num_fluid_particles p)%Z -> fluid_bound p N = N) /\
    ((num_fluid_particles p < 0)%Z ->
       fluid_bound p N = (N - Z.to_nat (- num_fluid_particles p))%nat).
Proof.
  intros Hv Hg.
  destruct (apply_gravity_force_items p g dt N Hv Hg) as (V & HV & HsV & HiV).
  exists V. repeat (split; [assumption|]).
  split; [|split; [|split; [|split]]].
  - intros i c Hi. rewrite HiV.
    now destruct (Nat.ltb_spec i (fluid_bound p N)); [|lia].
  - intros i c Hi. rewrite HiV.
    now destruct (Nat.ltb_spec i (fluid_bound p N)); [lia|].
  - apply slice_bound_cases_nonneg.
  - apply slice_bound_cases_large.
  - apply slice_bound_cases_neg.
Qed.

Lemma gravity_on_fluid_rows_witness :
  shape (velocities Fixtures.p_uneven) = [2%nat; 2%nat] /\
  shape Fixtures.g_down = [2%nat] /\
  exists V,
    apply_gravity_force Fixtures.p_uneven Fixtures.g_down (1 / 2) = Ok V /\
    shape V = [2%nat; 2%nat] /\
    (forall i c, (i < fluid_bound Fixtures.p_uneven 2)%nat ->
       item V [i; c]
       = item (velocities Fixtures.p_uneven) [i; c]
         + 1 / 2 * item Fixtures.g_down [c]) /\
    (forall i c, (fluid_bound Fixtures.p_uneven 2 <= i)%nat ->
       item V [i; c] = item (velocities Fixtures.p_uneven) [i; c]).
Proof.
  repeat (split; [reflexivity|]).
  destruct (gravity_on_fluid_rows Fixtures.p_uneven Fixtures.g_down (1 / 2) 2
              eq_refl eq_refl) as (V & HV & HsV & Hlow & Hhigh & _).
  exists V. repeat (split; [assumption|]). exact Hhigh.
Defined.

(** X7.  [update_positions] moves the rows below the slice bound by
    [dt] times their velocity and copies the other rows. *)
Theorem update_positions_rows (p : ParticleList) (vel : ndarray) (dt : R) (N : nat) :
  shape (positions p) = [N; 2%nat] ->
  shape vel = [N; 2%nat] ->
  exists X,
    update_positions p vel dt = Ok X /\ shape X = [N; 2%nat] /\
    (forall i c, (i < fluid_bound p N)%nat ->
       item X [i; c] = item (positions p) [i; c] + dt * item vel [i; c]) /\
    (forall i c, (fluid_bound p N <= i)%nat ->
       item X [i; c] = item (positions p) [i; c]).
Proof.
  intros Hx Hv.
  destruct (update_positions_items p vel dt N Hx Hv) as (X & HX & HsX & HiX).
  exists X. repeat (split; [assumption|]). split.
  - intros i c Hi. rewrite HiX.
    now destruct (Nat.ltb_spec i (fluid_bound p N)); [|lia].
  - intros i c Hi. rewrite HiX.
    now destruct (Nat.ltb_spec i (fluid_bound p N)); [lia|].
Qed.

Lemma update_positions_rows_witness :
  shape (positions Fixtures.p_uneven) = [2%nat; 2%nat] /\
  shape Fixtures.vs2 = [2%nat; 2%nat] /\
  exists X,
    update_positions Fixtures.p_uneven Fixtures.vs2 (1 / 2) = Ok X /\
    shape X = [2%nat; 2%nat] /\
    (forall i c, (i < fluid_bound Fixtures.p_uneven 2)%nat ->
       item X [i; c]
       = item (positions Fixtures.p_uneven) [i; c]
         + 1 / 2 * item Fixtures.vs2 [i; c]).
Proof.
  repeat (split; [reflexivity|]).
  destruct (update_positions_rows Fixtures.p_uneven Fixtures.vs2 (1 / 2) 2
              eq_refl eq_refl) as (X & HX & HsX & Hlow & _).
  exists X. repeat (split; [assumption|]). exact Hlow.
Defined.

(** X8.  One step on a consistent state succeeds and is a semi-implicit
    Euler step: every velocity gets the pressure acceleration
    [dt * (-1/density_i * pressureGrad_i) / mass_i], fluid velocities get
    [dt * g] as well, and fluid positions advance by [dt] times the NEW
    velocity; boundary positions stay. *)
Theorem timestep_semi_implicit_euler (p : ParticleList) (g : ndarray) (dt : R) (N : nat) :
  consistent N p ->
  shape g = [2%nat] ->
  exists dens G p',
    reconstruct_density p = Ok dens /\
    eval_pressure_grad p dens = Ok G /\
    timestep p g dt = Ok p' /\
    forall i c, (i < N)%nat ->
      item (velocities p') [i; c] =
        (if (i <? fluid_bound p N)%nat
         then item (velocities p) [i; c] + dt * item g [c]
         else item (velocities p) [i; c])
        + dt * ((-1) / item dens [i] * item G [i; c]) / item (masses p) [i] /\
      item (positions p') [i; c] =
        (if (i <? fluid_bound p N)%nat
         then item (positions p) [i; c] + dt * item (velocities p') [i; c]
         else item (positions p) [i; c]).
Proof.
  intros Hc Hg.
  destruct (timestep_items p g dt N Hc Hg)
    as (dens & G & p' & Hd & _ & HG & _ & Hstep & _ & Hitems).
  exists dens, G, p'. repeat (split; [assumption|]). exact Hitems.
Qed.

Lemma timestep_semi_implicit_euler_witness :
  consistent 2 Fixtures.p_uneven /\
  shape Fixtures.g_down = [2%nat] /\
  exists p',
    timestep Fixtures.p_uneven Fixtures.g_down (1 / 2) = Ok p' /\
    forall i c, (i < 2)%nat ->
      item (positions p') [i; c] =
        (if (i <? fluid_bound Fixtures.p_uneven 2)%nat
         then item (positions Fixtures.p_uneven) [i; c]
              + 1 / 2 * item (velocities p') [i; c]
         else item (positions Fixtures.p_uneven) [i; c]).
Proof.
  assert (Hc : consistent 2 Fixtures.p_uneven).
  { repeat (split; [reflexivity|]). eexists. split; reflexivity. }
  split; [exact Hc|]. split; [reflexivity|].
  destruct (timestep_semi_implicit_euler Fixtures.p_uneven Fixtures.g_down
              (1 / 2) 2 Hc eq_refl) as (dens & G & p' & _ & _ & Hstep & Hitems).
  exists p'. split; [exact Hstep|]. intros i c Hi. now apply Hitems.
Defined.

(** X9.  A gravity array that is neither a pair nor a single number makes
    the step fail: on a consistent state, [timestep] with a one-dimensional
    [g] of length other than 1 or 2 raises [ValueError]. *)
Theorem timestep_rejects_gravity_shape
    (p : ParticleList) (g : ndarray) (dt : R) (N m : nat) :
  consistent N p ->
  shape g = [m] ->
  m <> 1%nat -> m <> 2%nat ->
  timestep p g dt = Raise ValueError.
Proof.
  intros (Hm & Hx & Hv & Hn & rd & Hrd & Hsrd) Hg H1 H2.
  destruct (reconstruct_density_items p N Hm Hx) as (dens & Hd & Hsd & _).
  destruct (eval_pressure_grad_items p dens rd N Hm Hx Hrd Hsrd Hsd)
    as (G & HG & HsG & _).
  unfold timestep. rewrite Hd. simpl. rewrite HG. simpl.
  now rewrite (apply_gravity_force_bad_shape p g dt N m Hv Hg H1 H2).
Qed.

Lemma timestep_rejects_gravity_shape_witness :
  consistent 2 Fixtures.p_uneven /\
  shape (array1 [0; -1; 0]) = [3%nat] /\
  3%nat <> 1%nat /\ 3%nat <> 2%nat /\
  timestep Fixtures.p_uneven (array1 [0; -1; 0]) (1 / 2) = Raise ValueError.
Proof.
  assert (Hc : consistent 2 Fixtures.p_uneven).
  { repeat (split; [reflexivity|]). eexists. split; reflexivity. }
  split; [exact Hc|]. split; [reflexivity|]. split; [lia|]. split; [lia|].
  apply (timestep_rejects_gravity_shape Fixtures.p_uneven (array1 [0; -1; 0])
           (1 / 2) 2 3 Hc eq_refl); lia.
Defined.

(** X10.  A velocities array whose row count [M] differs from the particle
    count [N] (neither being 1) is caught only by the step: [timestep]
    raises [ValueError] when it adds the pressure acceleration. *)
Theorem timestep_rejects_velocity_rows
    (p : ParticleList) (g rd : ndarray) (dt : R) (N M : nat) :
  shape (masses p) = [N] ->
  shape (positions p) = [N; 2%nat] ->
  shape (velocities p) = [M; 2%nat] ->
  rest_densities p = Some rd ->
  shape rd = [N] ->
  shape g = [2%nat] ->
  M <> N -> M <> 1%nat -> N <> 1%nat ->
  timestep p g dt = Raise ValueError.
Proof.
  intros Hm Hx Hv Hrd Hsrd Hg HMN HM HN.
  destruct (reconstruct_density_items p N Hm Hx) as (dens & Hd & Hsd & _).
  destruct (eval_pressure_grad_items p dens rd N Hm Hx Hrd Hsrd Hsd)
    as (G & HG & HsG & _).
  destruct (apply_gravity_force_items p g dt M Hv Hg) as (V1 & HV1 & HsV1 & _).
  unfold timestep. rewrite Hd. simpl. rewrite HG. simpl. rewrite HV1. simpl.
  now rewrite (apply_pressure_force_bad_rows p V1 dens G dt N M
                 Hm HsV1 Hsd HsG HMN HM HN).
Qed.

Lemma timestep_rejects_velocity_rows_witness :
  shape (masses MoreFixtures.p_three_velocities) = [2%nat] /\
  shape (positions MoreFixtures.p_three_velocities) = [2%nat; 2%nat] /\
  shape (velocities MoreFixtures.p_three_velocities) = [3%nat; 2%nat] /\
  rest_densities MoreFixtures.p_three_velocities = Some (array1 [1; 1]) /\
  shape (array1 [1; 1]) = [2%nat] /\
  shape Fixtures.g_down = [2%nat] /\
  3%nat <> 2%nat /\ 3%nat <> 1%nat /\ 2%nat <> 1%nat /\
  timestep MoreFixtures.p_three_velocities Fixtures.g_down (1 / 2)
  = Raise ValueError.
Proof.
  repeat (split; [reflexivity|]). repeat (split; [lia|]).
  apply (timestep_rejects_velocity_rows MoreFixtures.p_three_velocities
           Fixtures.g_down (array1 [1; 1]) (1 / 2) 2 3
           eq_refl eq_refl eq_refl eq_refl eq_refl eq_refl); lia.
Defined.

(** X11.  On a consistent state any number of steps succeeds; the state
    stays consistent and the steps leave the masses, [h], [k], the particle
    count and the fluid count as they were. *)
Theorem run_keeps_consistent (p : ParticleList) (g : ndarray) (dt : R) (N K : nat) :
  consistent N p ->
  shape g = [2%nat] ->
  exists pK,
    run K p g dt = Ok pK /\ consistent N pK /\
    masses pK = masses p /\ h pK = h p /\ k pK = k p /\
    num_particles pK = num_particles p /\
    num_fluid_particles pK = num_fluid_particles p.
Proof.
  intros Hc Hg.
  destruct (run_consistent K g dt N Hg p Hc) as (pK & HpK & HcK).
  destruct (run_frame K g dt p pK HpK) as (Hm & Hh & Hk & Hn & HF & _).
  exists pK. repeat (split; [assumption|]). assumption.
Qed.

Lemma run_keeps_consistent_witness :
  consistent 2 Fixtures.p_uneven /\
  shape Fixtures.g_down = [2%nat] /\
  exists pK,
    run 4 Fixtures.p_uneven Fixtures.g_down (1 / 2) = Ok pK /\
    consistent 2 pK /\ masses pK = masses Fixtures.p_uneven.
Proof.
  assert (Hc : consistent 2 Fixtures.p_uneven).
  { repeat (split; [reflexivity|]). eexists. split; reflexivity. }
  split; [exact Hc|]. split; [reflexivity|].
  destruct (run_keeps_consistent Fixtures.p_uneven Fixtures.g_down (1 / 2) 2 4
              Hc eq_refl) as (pK & HpK & HcK & Hm & _).
  exists pK. repeat (split; [assumption|]). exact Hm.
Defined.

(** X13.  When every particle has a nonzero mass and a positive density
    that does not exceed its rest density, the step exerts no pressure
    force: velocities of fluid rows change by [dt * g] only, boundary
    velocities do not change, and fluid positions advance by [dt] times the
    new velocity. *)
Theorem uncompressed_step_is_free_fall
    (p : ParticleList) (g rd : ndarray) (dt : R) (N : nat) :
  consistent N p ->
  shape g = [2%nat] ->
  rest_densities p = Some rd ->
  (forall i, (i < N)%nat -> item (masses p) [i] <> 0) ->
  (forall dens, reconstruct_density p = Ok dens ->
     forall i, (i < N)%nat -> 0 < item dens [i] <= item rd [i]) ->
  exists p',
    timestep p g dt = Ok p' /\
    forall i c, (i < N)%nat ->
      item (velocities p') [i; c] =
        (if (i <? fluid_bound p N)%nat
         then item (velocities p) [i; c] + dt * item g [c]
         else item (velocities p) [i; c]) /\
      item (positions p') [i; c] =
        (if (i <? fluid_bound p N)%nat
         then item (positions p) [i; c] + dt * item (velocities p') [i; c]
         else item (positions p) [i; c]).
Proof.
  intros Hc Hg Hrd _ Hle.
  destruct (timestep_without_pressure p g dt N rd Hc Hg Hrd) as (p' & Hstep & _ & Hitems).
  - intros dens Hd i Hi. destruct (Hle dens Hd i Hi) as (Hpos & Hle').
    apply Rmax_right.
    assert (item dens [i] / item rd [i] <= 1).
    { apply (Rmult_le_reg_r (item rd [i])); [lra|].
      unfold Rdiv. rewrite Rmult_assoc, Rinv_l by lra. lra. }
    lra.
  - exists p'. split; assumption.
Qed.

Lemma uncompressed_step_is_free_fall_witness :
  consistent 2 MoreFixtures.p_sparse /\
  shape Fixtures.g_down = [2%nat] /\
  rest_densities MoreFixtures.p_sparse = Some MoreFixtures.rd_high /\
  (forall i, (i < 2)%nat -> item (masses MoreFixtures.p_sparse) [i] <> 0) /\
  (forall dens, reconstruct_density MoreFixtures.p_sparse = Ok dens ->
     forall i, (i < 2)%nat ->
       0 < item dens [i] <= item MoreFixtures.rd_high [i]) /\
  exists p',
    timestep MoreFixtures.p_sparse Fixtures.g_down (1 / 2) = Ok p' /\
    forall i c, (i < 2)%nat ->
      item (velocities p') [i; c] =
        (if (i <? fluid_bound MoreFixtures.p_sparse 2)%nat
         then item (velocities MoreFixtures.p_sparse) [i; c]
              + 1 / 2 * item Fixtures.g_down [c]
         else item (velocities MoreFixtures.p_sparse) [i; c]).
Proof.
  assert (Hc : consistent 2 MoreFixtures.p_sparse).
  { repeat (split; [reflexivity|]). eexists. split; reflexivity. }
  assert (Hmass : forall i, (i < 2)%nat ->
                    item (masses MoreFixtures.p_sparse) [i] <> 0).
  { intros [|[|i]] Hi; simpl; [lra|lra|lia]. }
  assert (Hle : forall dens, reconstruct_density MoreFixtures.p_sparse = Ok dens ->
     forall i, (i < 2)%nat ->
       0 < item dens [i] <= item MoreFixtures.rd_high [i]).
  { intros dens Hd i Hi.
    destruct (reconstruct_density_items MoreFixtures.p_sparse 2 eq_refl eq_refl)
      as (dens' & Hd' & _ & Hid).
    assert (dens' = dens) by congruence. subst dens'.
    rewrite Hid by assumption.
    assert (Hk : forall dx dy, 0 < kernelValue dx dy 1 <= 1 / (1 * sqrt (2 * PI))).
    { intros. split; [apply kernelValue_pos|apply kernelValue_le_origin]; lra. }
    destruct i as [|[|i]]; [| |lia]; simpl;
      match goal with
      | |- 0 < 0 + 1 * kernelValue ?a ?b 1 + 1 * kernelValue ?c ?d 1 <= _ =>
          pose proof (Hk a b); pose proof (Hk c d)
      end; lra. }
  split; [exact Hc|]. split; [reflexivity|]. split; [reflexivity|].
  split; [exact Hmass|]. split; [exact Hle|].
  destruct (uncompressed_step_is_free_fall MoreFixtures.p_sparse Fixtures.g_down
              MoreFixtures.rd_high (1 / 2) 2 Hc eq_refl eq_refl Hmass Hle)
    as (p' & Hstep & Hitems).
  exists p'. split; [exact Hstep|]. intros i c Hi. now apply Hitems.
Defined.

(** X14.  A particle set of a single fluid particle, with a nonzero mass
    and [h <> 0], feels no pressure: its density always equals its rest
    density, so after [K] steps it has velocity [v0 + K dt g] and position
    [x0 + K dt v0 + dt^2 g K (K + 1) / 2]. *)
Theorem lone_particle_trajectory
    (ms xs vs g : ndarray) (hh kk dt : R) (F : Z) (K : nat) :
  shape ms = [1%nat] ->
  shape xs = [1%nat; 2%nat] ->
  shape vs = [1%nat; 2%nat] ->
  shape g = [2%nat] ->
  (1 <= F)%Z ->
  item ms [O] <> 0 ->
  hh <> 0 ->
  exists p0 pK,
    init ms xs vs hh kk F = Ok p0 /\
    run K p0 g dt = Ok pK /\
    forall c,
      item (velocities pK) [O; c] = item vs [O; c] + INR K * dt * item g [c] /\
      item (positions pK) [O; c]
        = item xs [O; c] + INR K * dt * item vs [O; c]
          + dt * dt * item g [c] * (INR K * (INR K + 1) / 2).
Proof.
  intros Hm Hx Hv Hg HF _ _.
  destruct (init_consistent ms xs vs hh kk F 1 Hm Hx Hv) as (rd & Hrd & Hsrd & Hinit).
  set (p0 := mk_particles ms xs vs hh kk 1 F (Some rd)) in *.
  assert (Hc : consistent 1 p0).
  { unfold consistent, p0. simpl. repeat (split; [easy|]). now exists rd. }
  assert (Hself : item rd [O] = item (masses p0) [O] * kernelValue 0 0 (h p0)).
  { destruct (reconstruct_density_items
                (mk_particles ms xs vs hh kk 1 F None) 1 Hm Hx)
      as (rd' & Hrd' & _ & Hid).
    assert (rd' = rd) by congruence. subst rd'.
    rewrite Hid by lia. simpl. rewrite !Rminus_diag. lra. }
  destruct (lone_run K g dt Hg p0 rd Hc eq_refl Hself) as (pK & HpK & Hitems).
  { unfold fluid_bound, p0. simpl. now apply slice_bound_cases_large. }
  exists p0, pK. repeat (split; [assumption|]). exact Hitems.
Qed.

Lemma lone_particle_trajectory_witness :
  shape MoreFixtures.ms_one = [1%nat] /\
  shape (array2 [[0; 5]]) = [1%nat; 2%nat] /\
  shape (array2 [[1; 0]]) = [1%nat; 2%nat] /\
  shape Fixtures.g_down = [2%nat] /\
  (1 <= 1)%Z /\
  item MoreFixtures.ms_one [O] <> 0 /\
  1 <> 0 /\
  exists p0 pK,
    init MoreFixtures.ms_one (array2 [[0; 5]]) (array2 [[1; 0]]) 1 1 1%Z = Ok p0 /\
    run 3 p0 Fixtures.g_down (1 / 2) = Ok pK /\
    forall c,
      item (velocities pK) [O; c]
        = item (array2 [[1; 0]]) [O; c] + INR 3 * (1 / 2) * item Fixtures.g_down [c].
Proof.
  assert (Hmass : item MoreFixtures.ms_one [O] <> 0) by (simpl; lra).
  assert (Hh : 1 <> 0) by lra.
  repeat (split; [reflexivity|]). split; [exact Hmass|]. split; [exact Hh|].
  destruct (lone_particle_trajectory MoreFixtures.ms_one (array2 [[0; 5]])
              (array2 [[1; 0]]) Fixtures.g_down 1 1 (1 / 2) 1%Z 3
              eq_refl eq_refl eq_refl eq_refl) as (p0 & pK & H0 & HK & Hitems);
    [lia|exact Hmass|exact Hh|].
  exists p0, pK. repeat (split; [assumption|]). intros c. now apply Hitems.
Defined.

(** X15.  The frame loop follows [run]: when [num_frames] steps succeed it
    returns the state [run] returns and has appended exactly [num_frames]
    snapshots, the [j]-th being the positions after [j + 1] steps; when a
    step raises, the loop raises the same exception. *)
Theorem precompute_follows_run
    (n : nat) (p : ParticleList) (g : ndarray) (dt : R) (fd0 : list ndarray) :
  (forall pK, run n p g dt = Ok pK ->
     exists fs,
       precompute n p g dt fd0 = Ok (pK, fd0 ++ fs) /\
       length fs = n /\
       forall j, (j < n)%nat ->
         exists pj, run (S j) p g dt = Ok pj /\
                    nth_error fs j = Some (copy (positions pj))) /\
  (forall e, run n p g dt = Raise e -> precompute n p g dt fd0 = Raise e).
Proof.
  pose proof (precompute_run n g dt p fd0) as H.
  split.
  - intros pK HpK. now rewrite HpK in H.
  - intros e He. now rewrite He in H.
Qed.

(** X16.  On a consistent state the frame loop never raises: it returns
    [num_frames] frames, each a full [(N, 2)] position array in which the
    boundary rows are those of the initial state. *)
Theorem precompute_frames_keep_boundary
    (n : nat) (p : ParticleList) (g : ndarray) (dt : R) (N : nat) :
  consistent N p ->
  shape g = [2%nat] ->
  exists pK fs,
    precompute n p g dt [] = Ok (pK, fs) /\
    length fs = n /\
    forall j fr, nth_error fs j = Some fr ->
      shape fr = [N; 2%nat] /\
      forall i c, (fluid_bound p N <= i)%nat ->
        item fr [i; c] = item (positions p) [i; c].
Proof.
  intros Hc Hg.
  destruct (precompute_consistent n p g dt N Hc Hg) as (pK & fs & Hpre & _ & Hlen & Hfr).
  exists pK, fs. repeat (split; [assumption|]).
  intros j fr Hnth. destruct (Hfr j fr Hnth) as (Hs & _ & Hb). now split.
Qed.

Lemma precompute_frames_keep_boundary_witness :
  consistent 2 Fixtures.p_uneven /\
  shape Fixtures.g_down = [2%nat] /\
  exists pK fs,
    precompute 3 Fixtures.p_uneven Fixtures.g_down (1 / 2) [] = Ok (pK, fs) /\
    length fs = 3%nat.
Proof.
  assert (Hc : consistent 2 Fixtures.p_uneven).
  { repeat (split; [reflexivity|]). eexists. split; reflexivity. }
  split; [exact Hc|]. split; [reflexivity|].
  destruct (precompute_frames_keep_boundary 3 Fixtures.p_uneven Fixtures.g_down
              (1 / 2) 2 Hc eq_refl) as (pK & fs & Hpre & Hlen & _).
  exists pK, fs. split; assumption.
Defined.

(** X17.  For a valid frame index (negative ones count from the end)
    [update] splits the frame at the fluid count: the fluid offsets are the
    rows below the slice bound, the boundary offsets the rows from it on,
    and together they are all [N] rows. *)
Theorem update_splits_frame
    (frame_data : list ndarray) (F frame : Z) (N : nat) :
  (- Z.of_nat (length frame_data) <= frame < Z.of_nat (length frame_data))%Z ->
  (forall fr, In fr frame_data -> shape fr = [N; 2%nat]) ->
  exists fd fl bd,
    nth_error frame_data
      (Z.to_nat (if (frame <? 0)%Z
                 then Z.of_nat (length frame_data) + frame else frame))
    = Some fd /\
    update frame_data F frame = Ok (fl, bd) /\
    shape fl = [slice_bound F N; 2%nat] /\
    shape bd = [(N - slice_bound F N)%nat; 2%nat] /\
    (slice_bound F N + (N - slice_bound F N) = N)%nat /\
    (forall i c, item fl [i; c] = item fd [i; c]) /\
    (forall i c, item bd [i; c] = item fd [(slice_bound F N + i)%nat; c]).
Proof.
  intros Hframe Hshapes.
  destruct (list_index_in_range frame_data frame Hframe) as (fd & Hidx & Hnth).
  assert (Hs : shape fd = [N; 2%nat]).
  { apply Hshapes. eapply nth_error_In. exact Hnth. }
  destruct (update_items frame_data F frame fd N Hidx Hs)
    as (fl & bd & Hup & Hsfl & Hsbd & Hfl & Hbd).
  exists fd, fl, bd. repeat (split; [assumption|]).
  split; [|split; assumption].
  pose proof (slice_bound_le F N). lia.
Qed.

Lemma update_splits_frame_witness :
  (- Z.of_nat (length [Fixtures.xs2; Fixtures.vs2]) <= -1
   < Z.of_nat (length [Fixtures.xs2; Fixtures.vs2]))%Z /\
  (forall fr, In fr [Fixtures.xs2; Fixtures.vs2] -> shape fr = [2%nat; 2%nat]) /\
  exists fl bd,
    update [Fixtures.xs2; Fixtures.vs2] 1 (-1) = Ok (fl, bd) /\
    shape fl = [slice_bound 1 2; 2%nat] /\
    (forall i c, item fl [i; c] = item Fixtures.vs2 [i; c]).
Proof.
  assert (Hr : (- Z.of_nat (length [Fixtures.xs2; Fixtures.vs2]) <= -1
                < Z.of_nat (length [Fixtures.xs2; Fixtures.vs2]))%Z)
    by (simpl; lia).
  assert (Hs : forall fr, In fr [Fixtures.xs2; Fixtures.vs2] ->
                          shape fr = [2%nat; 2%nat]).
  { intros fr [<-|[<-|[]]]; reflexivity. }
  split; [exact Hr|]. split; [exact Hs|].
  destruct (update_splits_frame [Fixtures.xs2; Fixtures.vs2] 1 (-1) 2 Hr Hs)
    as (fd & fl & bd & Hnth & Hup & Hsfl & _ & _ & Hfl & _).
  exists fl, bd. repeat (split; [assumption|]).
  intros i c. rewrite Hfl. simpl in Hnth. injection Hnth as <-. reflexivity.
Defined.

(** X18.  [update] raises [IndexError] for a frame index outside
    [[-len(frame_data), len(frame_data))]; in particular for every index
    when no frame was computed. *)
Theorem update_index_error (frame_data : list ndarray) (F frame : Z) :
  (frame < - Z.of_nat (length frame_data)
   \/ Z.of_nat (length frame_data) <= frame)%Z ->
  update frame_data F frame = Raise IndexError.
Proof.
  intros Hframe. unfold update.
  now rewrite (list_index_out_of_range frame_data frame Hframe).
Qed.

Lemma update_index_error_witness :
  (2 < - Z.of_nat (length [Fixtures.xs2; Fixtures.vs2])
   \/ Z.of_nat (length [Fixtures.xs2; Fixtures.vs2]) <= 2)%Z /\
  update [Fixtures.xs2; Fixtures.vs2] 1 2 = Raise IndexError.
Proof.
  assert (H : (2 < - Z.of_nat (length [Fixtures.xs2; Fixtures.vs2])
               \/ Z.of_nat (length [Fixtures.xs2; Fixtures.vs2]) <= 2)%Z)
    by (right; simpl; lia).
  split; [exact H|].
  apply (update_index_error [Fixtures.xs2; Fixtures.vs2] 1 2 H).
Defined.

(** X19.  For every grid size and wall size the script assembles a
    consistent particle set of [grid_dim^2 + 4 * num_wall_particles]
    particles: the first [grid_dim^2] are the fluid, all velocities are 0,
    every mass is 0.1, and the rest densities are the densities of this
    very arrangement, each at least [0.1 / (h sqrt(2 pi))], so positive. *)
Theorem initial_particles_at_rest (grid_dim w : nat) :
  exists p0 rd,
    initial_particles grid_dim w = Ok p0 /\
    consistent (grid_dim * grid_dim + 4 * w) p0 /\
    fluid_bound p0 (grid_dim * grid_dim + 4 * w) = (grid_dim * grid_dim)%nat /\
    (forall i c, item (velocities p0) [i; c] = 0) /\
    (forall i, item (masses p0) [i] = 1 / 10) /\
    rest_densities p0 = Some rd /\
    reconstruct_density p0 = Ok rd /\
    forall i, (i < grid_dim * grid_dim + 4 * w)%nat ->
      1 / 10 * (1 / (h_const * sqrt (2 * PI))) <= item rd [i].
Proof.
  destruct (initial_particles_items grid_dim w)
    as (A & B & p0 & rd & _ & _ & Hp0 & Hc & Hrd & Hdens & HF & Hh & _ & Hv & Hm & _).
  exists p0, rd. repeat (split; [assumption|]).
  split; [now apply fluid_bound_script|]. split; [exact Hv|].
  split; [intros i; rewrite Hm; lra|]. repeat (split; [assumption|]).
  pose proof Hc as (Hsm & Hsx & _).
  destruct (density_lower_bound p0 (grid_dim * grid_dim + 4 * w)) as (d & Hd & Hlow);
    try assumption.
  - rewrite Hh. apply h_const_pos.
  - intros j _. rewrite Hm. lra.
  - assert (d = rd) by congruence. subst d.
    intros i Hi. specialize (Hlow i Hi). rewrite Hm, Hh in Hlow. lra.
Qed.

(** X20.  Where the script puts the particles: every fluid particle lies
    in the box [[-0.2, 0.2] x [0.2, 0.4]]; the [q]-th particle of the four
    walls sits at [(-0.5 + q/w, 0)], [(0.5, q/w)], [(0.5 - q/w, 1)] and
    [(-0.5, 1 - q/w)], so the ring runs once around the rectangle
    [[-0.5, 0.5] x [0, 1]] and encloses the fluid. *)
Theorem initial_geometry (grid_dim w : nat) :
  exists p0,
    initial_particles grid_dim w = Ok p0 /\
    (forall i, (i < grid_dim * grid_dim)%nat ->
       - (2 / 10) <= item (positions p0) [i; O] <= 2 / 10 /\
       2 / 10 <= item (positions p0) [i; 1%nat] <= 4 / 10) /\
    (forall q, (q < w)%nat ->
       let G := (grid_dim * grid_dim)%nat in
       let t := INR q / INR w in
       (item (positions p0) [(G + q)%nat; O] = - (5 / 10) + t /\
        item (positions p0) [(G + q)%nat; 1%nat] = 0) /\
       (item (positions p0) [(G + (w + q))%nat; O] = 5 / 10 /\
        item (positions p0) [(G + (w + q))%nat; 1%nat] = t) /\
       (item (positions p0) [(G + (w + (w + q)))%nat; O] = 5 / 10 - t /\
        item (positions p0) [(G + (w + (w + q)))%nat; 1%nat] = 1) /\
       (item (positions p0) [(G + (w + (w + (w + q))))%nat; O] = - (5 / 10) /\
        item (positions p0) [(G + (w + (w + (w + q))))%nat; 1%nat] = 1 - t)).
Proof.
  destruct (initial_particles_items grid_dim w)
    as (A & B & p0 & rd & HA & HB & Hp0 & _ & _ & _ & _ & _ & _ & _ & _ & HxA & HxB).
  destruct (fluid_positions_items grid_dim) as (A' & HA' & _ & HiA).
  assert (A' = A) by congruence. subst A'.
  destruct (boundary_positions_items w) as (B' & HB' & _ & HiB).
  assert (B' = B) by congruence. subst B'.
  exists p0. split; [assumption|]. split.
  - intros i Hi. rewrite !HxA by assumption.
    destruct (HiA i Hi) as (-> & ->).
    assert (Hg : grid_dim <> O) by (intros ->; lia).
    split; apply linspace_item_between; try lra.
    + now apply Nat.mod_upper_bound.
    + apply Nat.Div0.div_lt_upper_bound. lia.
  - intros q Hq G t.
    assert (Hw : INR w <> 0) by (apply not_0_INR; lia).
    destruct (HiB q Hq) as ((H0x & H0y) & (H1x & H1y) & (H2x & H2y) & (H3x & H3y)).
    unfold G. rewrite !HxB by lia.
    rewrite H0x, H0y, H1x, H1y, H2x, H2y, H3x, H3y.
    rewrite !linspace_item by assumption. unfold t.
    repeat split; try lra; field; assumption.
Qed.

(** X21.  The first step of the script is pure free fall: the arrangement
    starts at its rest densities, so there is no pressure; every fluid
    particle gets the velocity [dt * g] and moves by [dt] times it, and
    every boundary particle keeps velocity 0 and its position. *)
Theorem script_first_step (grid_dim w : nat) :
  exists p0 p1,
    initial_particles grid_dim w = Ok p0 /\
    timestep p0 g_const dt_const = Ok p1 /\
    (forall i c, (i < grid_dim * grid_dim)%nat ->
       item (velocities p1) [i; c] = dt_const * item g_const [c] /\
       item (positions p1) [i; c]
         = item (positions p0) [i; c] + dt_const * (dt_const * item g_const [c])) /\
    (forall i c, (grid_dim * grid_dim <= i < grid_dim * grid_dim + 4 * w)%nat ->
       item (velocities p1) [i; c] = 0 /\
       item (positions p1) [i; c] = item (positions p0) [i; c]).
Proof.
  destruct (initial_particles_items grid_dim w)
    as (A & B & p0 & rd & _ & _ & Hp0 & Hc & Hrd & Hdens & HF & _ & _ & Hv & _).
  destruct (timestep_without_pressure p0 g_const dt_const
              (grid_dim * grid_dim + 4 * w) rd Hc eq_refl Hrd)
    as (p1 & Hstep & _ & Hitems).
  { intros dens Hd i Hi. assert (dens = rd) by congruence. subst dens.
    apply Rmax_ratio_self. }
  pose proof (fluid_bound_script p0 (grid_dim * grid_dim) (4 * w) HF) as Hfb.
  exists p0, p1. repeat (split; [assumption|]). split.
  - intros i c Hi. destruct (Hitems i c) as (Hv1 & Hx1); [lia|].
    rewrite Hfb in Hv1, Hx1.
    destruct (Nat.ltb_spec i (grid_dim * grid_dim)); [|lia].
    rewrite Hx1, Hv1, Hv. split; lra.
  - intros i c Hi. destruct (Hitems i c) as (Hv1 & Hx1); [lia|].
    rewrite Hfb in Hv1, Hx1.
    destruct (Nat.ltb_spec i (grid_dim * grid_dim)); [lia|].
    rewrite Hx1, Hv1, Hv. split; reflexivity.
Qed.


(** X23.  Construction needs positions with at least two axes: for a
    scalar or a flat list of coordinates [ParticleList(...)] raises
    [IndexError] (from [positions.shape[0]], or from
    [positions[:, np.newaxis, :]]), whatever the other arguments. *)
Theorem init_rejects_flat_positions
    (ms xs vs : ndarray) (hh kk : R) (F : Z) :
  (ndim xs < 2)%nat ->
  init ms xs vs hh kk F = Raise IndexError.
Proof.
  unfold ndim, init. intros Hnd.
  destruct (shape xs) as [|n [|m r]] eqn:Hs; [reflexivity| |simpl in Hnd; lia].
  unfold reconstruct_density, positions_diff, newaxis, ndim.
  cbn [positions]. rewrite Hs. reflexivity.
Qed.

Lemma init_rejects_flat_positions_witness :
  (ndim MoreFixtures.xs_flat < 2)%nat /\
  init Fixtures.ms2 MoreFixtures.xs_flat Fixtures.vs2 1 1 1%Z = Raise IndexError.
Proof.
  assert (H : (ndim MoreFixtures.xs_flat < 2)%nat) by (unfold ndim; simpl; lia).
  split; [exact H|].
  apply (init_rejects_flat_positions Fixtures.ms2 MoreFixtures.xs_flat
           Fixtures.vs2 1 1 1%Z H).
Defined.

(** X24.  The step is invariant under translation: two consistent states
    that differ only by a shift [a] of every position take the same
    velocities, and their new positions differ by the same shift. *)
Theorem timestep_translation_invariant
    (p q : ParticleList) (g : ndarray) (dt : R) (N : nat) (a : nat -> R) :
  consistent N p ->
  consistent N q ->
  shape g = [2%nat] ->
  masses q = masses p ->
  velocities q = velocities p ->
  h q = h p -> k q = k p ->
  num_fluid_particles q = num_fluid_particles p ->
  rest_densities q = rest_densities p ->
  (forall i c, (i < N)%nat -> (c < 2)%nat ->
     item (positions q) [i; c] = item (positions p) [i; c] + a c) ->
  exists p' q',
    timestep p g dt = Ok p' /\ timestep q g dt = Ok q' /\
    forall i c, (i < N)%nat -> (c < 2)%nat ->
      item (velocities q') [i; c] = item (velocities p') [i; c] /\
      item (positions q') [i; c] = item (positions p') [i; c] + a c.
Proof.
  intros Hcp Hcq Hg Hm Hv Hh Hk HF Hrd Hshift.
  pose proof Hcp as (Hmp & Hxp & _ & _ & rd & Hrdp & Hsrd).
  pose proof Hcq as (Hmq & Hxq & _ & _ & _).
  assert (Hrdq : rest_densities q = Some rd) by congruence.
  destruct (timestep_items p g dt N Hcp Hg)
    as (dp & Gp & p' & Hdp & Hsdp & HGp & _ & Hstp & _ & Hip).
  destruct (timestep_items q g dt N Hcq Hg)
    as (dq & Gq & q' & Hdq & Hsdq & HGq & _ & Hstq & _ & Hiq).
  destruct (reconstruct_density_items p N Hmp Hxp) as (dp' & Hdp' & _ & Hidp).
  assert (dp' = dp) by congruence. subst dp'.
  destruct (reconstruct_density_items q N Hmq Hxq) as (dq' & Hdq' & _ & Hidq).
  assert (dq' = dq) by congruence. subst dq'.
  assert (Hdens : forall i, (i < N)%nat -> item dq [i] = item dp [i]).
  { intros i Hi. rewrite Hidp, Hidq by assumption.
    apply sum_upto_ext. intros j Hj. rewrite Hm, Hh.
    rewrite !(Hshift i) by (assumption || lia).
    rewrite !(Hshift j) by (assumption || lia).
    f_equal. f_equal; lra. }
  destruct (eval_pressure_grad_items p dp rd N Hmp Hxp Hrdp Hsrd Hsdp)
    as (Gp' & HGp' & _ & HiGp).
  assert (Gp' = Gp) by congruence. subst Gp'.
  destruct (eval_pressure_grad_items q dq rd N Hmq Hxq Hrdq Hsrd Hsdq)
    as (Gq' & HGq' & _ & HiGq).
  assert (Gq' = Gq) by congruence. subst Gq'.
  assert (Hgrad : forall i c, (i < N)%nat -> (c < 2)%nat ->
            item Gq [i; c] = item Gp [i; c]).
  { intros i c Hi Hcc. rewrite HiGp, HiGq by assumption.
    apply sum_upto_ext. intros j Hj. cbv zeta.
    rewrite Hm, Hh, Hk, (Hdens j Hj).
    rewrite !(Hshift i) by (assumption || lia).
    rewrite !(Hshift j) by (assumption || lia).
    f_equal. f_equal; lra. }
  exists p', q'. repeat (split; [assumption|]).
  intros i c Hi Hcc.
  destruct (Hip i c Hi) as (Hvp & Hxp').
  destruct (Hiq i c Hi) as (Hvq & Hxq').
  assert (Hfb : fluid_bound q N = fluid_bound p N)
    by (unfold fluid_bound; now rewrite HF).
  assert (Hvel : item (velocities q') [i; c] = item (velocities p') [i; c]).
  { rewrite Hvq, Hvp, Hfb, Hv, Hm, (Hdens i Hi), (Hgrad i c Hi Hcc). reflexivity. }
  split; [exact Hvel|].
  rewrite Hxq', Hxp', Hfb, Hvel, (Hshift i c Hi Hcc).
  destruct (i <? fluid_bound p N)%nat; lra.
Qed.

Lemma timestep_translation_invariant_witness :
  consistent 2 Fixtures.p_uneven /\
  consistent 2 MoreFixtures.p_shifted /\
  shape Fixtures.g_down = [2%nat] /\
  masses MoreFixtures.p_shifted = masses Fixtures.p_uneven /\
  velocities MoreFixtures.p_shifted = velocities Fixtures.p_uneven /\
  h MoreFixtures.p_shifted = h Fixtures.p_uneven /\
  k MoreFixtures.p_shifted = k Fixtures.p_uneven /\
  num_fluid_particles MoreFixtures.p_shifted = num_fluid_particles Fixtures.p_uneven /\
  rest_densities MoreFixtures.p_shifted = rest_densities Fixtures.p_uneven /\
  (forall i c, (i < 2)%nat -> (c < 2)%nat ->
     item (positions MoreFixtures.p_shifted) [i; c]
     = item (positions Fixtures.p_uneven) [i; c] + nth c [3; 4] 0) /\
  exists p' q',
    timestep Fixtures.p_uneven Fixtures.g_down (1 / 2) = Ok p' /\
    timestep MoreFixtures.p_shifted Fixtures.g_down (1 / 2) = Ok q' /\
    forall i c, (i < 2)%nat -> (c < 2)%nat ->
      item (positions q') [i; c] = item (positions p') [i; c] + nth c [3; 4] 0.
Proof.
  assert (Hcp : consistent 2 Fixtures.p_uneven).
  { repeat (split; [reflexivity|]). eexists. split; reflexivity. }
  assert (Hcq : consistent 2 MoreFixtures.p_shifted).
  { repeat (split; [reflexivity|]). eexists. split; reflexivity. }
  assert (Hshift : forall i c, (i < 2)%nat -> (c < 2)%nat ->
     item (positions MoreFixtures.p_shifted) [i; c]
     = item (positions Fixtures.p_uneven) [i; c] + nth c [3; 4] 0).
  { intros [|[|i]] [|[|c]] Hi Hc; simpl; try lra; lia. }
  split; [exact Hcp|]. split; [exact Hcq|].
  repeat (split; [reflexivity|]). split; [exact Hshift|].
  destruct (timestep_translation_invariant Fixtures.p_uneven MoreFixtures.p_shifted
              Fixtures.g_down (1 / 2) 2 (fun c => nth c [3; 4] 0)
              Hcp Hcq eq_refl eq_refl eq_refl eq_refl eq_refl eq_refl eq_refl Hshift)
    as (p' & q' & Hp' & Hq' & Hitems).
  exists p', q'. repeat (split; [assumption|]).
  intros i c Hi Hc. now apply Hitems.
Defined.
